(** * sftp.js: the [SFTPClient] operation facade (src/index.ts)

    A shallow embedding of the programmatic API of sftp.js.  The class
    [SFTPClient] wraps two collaborators it does not implement: the
    [ssh2-sftp-client] library (the [this.client] field) and Node's [fs],
    [path], [process] and [Buffer].  Both are modelled as an environment
    that answers every external call with a value or with a thrown
    [Error]; the facade itself is translated method by method into a small
    state-and-exception monad that threads the two instance fields
    ([connected], [config]), the state of the outside world and the log of
    external calls made so far.  An [async] method is run to its end
    before the next call starts: a promise that resolves is a method that
    returns, a promise that rejects is a method that throws.  A
    JavaScript string is a string of characters with codes below 256
    here (Latin-1); a JavaScript number is an integer, which is exact for
    the safe integers (below [2^53] in absolute value), so every
    statement that shows a number parsed from a string or printed into
    one keeps it in that range. *)

From Stdlib Require Import String Ascii List ZArith Bool Lia DecimalString.
From Stdlib Require Import DecimalPos DecimalZ.
Import ListNotations.
Local Open Scope string_scope.
Local Open Scope Z_scope.

(** ** JavaScript values *)

(** The values that travel through the facade.  Numbers are only passed
    along, compared with [0] for truthiness or printed, so they are
    integers here; [NaN] is the [None] of an [option Z] where the code
    can produce it ([parseInt]). *)
#[warnings="-register-all"]
Inductive Val : Type :=
| VUndefined
| VNull
| VBool (b : bool)
| VNum (n : Z)
| VStr (s : string)
| VBuf (bytes : list Byte.byte)
| VArr (items : list Val)
| VObj (fields : list (string * Val)).

(** An object literal, its properties in the order they are written. *)
Definition Obj : Type := list (string * Val).

(** [o.k] seen as a property slot: [None] when [o] has no property [k]. *)
Fixpoint lookup (k : string) (o : Obj) : option Val :=
  match o with
  | [] => None
  | (k', v) :: rest => if String.eqb k k' then Some v else lookup k rest
  end.

(** The expression [o.k]: a missing property reads [undefined]. *)
Definition get_prop (o : Obj) (k : string) : Val :=
  match lookup k o with
  | Some v => v
  | None => VUndefined
  end.

Definition keys (o : Obj) : list string := map fst o.

(** A thrown [Error]; the facade only ever reads its [message].  Both
    collaborators throw [Error] objects and nothing else. *)
Record Error : Type := mkError { message : string }.

(** ** The interfaces of src/index.ts *)

(** [interface SFTPConfig]; an optional property that is absent is [None].
    [privateKey] is [string | Buffer]. *)
Record SFTPConfig : Type := mkConfig {
  host : string;
  port : option Z;
  username : string;
  password : option string;
  privateKey : option (string + list Byte.byte);
  passphrase : option string;
  retries : option Z;
  retry_factor : option Z;
  retry_minTimeout : option Z
}.

(** [interface OperationResult { success; message; data?; error? }]: the
    facade builds it as an object literal, so it is kept as one. *)
Definition OperationResult : Type := Obj.

(** The private fields of [class SFTPClient].  The third field, [client],
    is the [ssh2-sftp-client] object; its state lives in the world. *)
Record SFTPClient : Type := mkClient {
  connected : bool;
  config : option SFTPConfig
}.

(** [new SFTPClient()]. *)
Definition new_SFTPClient : SFTPClient :=
  {| connected := false; config := None |}.

(** A [Dirent] of [fs.readdirSync(p, { withFileTypes: true })]. *)
Record Dirent : Type := mkDirent {
  dirent_name : string;
  dirent_isDirectory : bool
}.

(** An [fs.Stats]: its data properties and the answer of [isDirectory()]. *)
Record Stats : Type := mkStats {
  stats_fields : Obj;
  stats_isDirectory : bool
}.

(** The [mode] argument of [chmod], typed [string | number]. *)
Inductive Mode : Type :=
| ModeStr (s : string)
| ModeNum (n : Z).

Definition mode_val (m : Mode) : Val :=
  match m with
  | ModeStr s => VStr s
  | ModeNum n => VNum n
  end.

(** ** External calls *)

(** Every call the facade makes outside itself, indexed by the type of the
    value the call yields.  [Client*] are methods of [ssh2-sftp-client],
    [Fs*] of Node's [fs], [ProcessCwd] is [process.cwd()]. *)
Inductive Call : Type -> Type :=
| ClientConnect (cfg : option SFTPConfig) : Call unit
| ClientEnd : Call unit
| ClientList (remotePath : string) : Call (list Obj)
| ClientPut (src : string + list Byte.byte) (remotePath : string) : Call unit
| ClientGet (remotePath localPath : string) : Call unit
| ClientGetBuffer (remotePath : string) : Call (list Byte.byte)
| ClientDelete (remotePath : string) : Call unit
| ClientMkdir (remotePath : string) (recursive : bool) : Call unit
| ClientRmdir (remotePath : string) (recursive : bool) : Call unit
| ClientRename (oldPath newPath : string) : Call unit
| ClientChmod (remotePath : string) (mode : Mode) : Call unit
| ClientExists (remotePath : string) : Call (option string)
| ClientStat (remotePath : string) : Call Val
| ClientUploadDir (localDir remoteDir : string) : Call unit
| ClientDownloadDir (remoteDir localDir : string) : Call unit
| ClientCwd : Call string
| FsReadFileSync (p : string) : Call (list Byte.byte)
| FsReadFileSyncEnc (p encoding : string) : Call string
| FsReaddirSync (p : string) : Call (list Dirent)
| FsStatSync (p : string) : Call Stats
| FsCopyFileSync (src dest : string) : Call unit
| FsUnlinkSync (p : string) : Call unit
| FsMkdirSync (p : string) (recursive : bool) : Call unit
| FsRmSync (p : string) (recursive force : bool) : Call unit
| FsRenameSync (oldPath newPath : string) : Call unit
| FsChmodSync (p : string) (mode : option Z) : Call unit
| FsExistsSync (p : string) : Call bool
| FsWriteFileSync (p : string) (content : string + list Byte.byte)
    (encoding : string) : Call unit
| ProcessCwd : Call string.

(** What the world answers: a value, or a thrown error. *)
Inductive Reply (A : Type) : Type :=
| Ok (a : A)
| Raise (e : Error).
Arguments Ok {A} a.
Arguments Raise {A} e.

(** The world the facade runs in: a state of type [W] (the server, the
    local disk), how each call is answered, the pure library functions
    [path.join], [Buffer.from(s, enc)] and [buf.toString(enc)] (the
    last two throw, for one on an encoding they do not know), and the
    depth at which the JavaScript engine stops a recursion with a
    [RangeError]. *)
Record Env (W : Type) : Type := mkEnv {
  handle : forall A, Call A -> W -> Reply A * W;
  path_join : string -> string -> string;
  buffer_from : string -> string -> Reply (list Byte.byte);
  buffer_toString : list Byte.byte -> string -> Reply string;
  stack_limit : nat
}.
Arguments handle {W} _ {A} _ _.
Arguments path_join {W} _ _ _.
Arguments buffer_from {W} _ _ _.
Arguments buffer_toString {W} _ _ _.
Arguments stack_limit {W} _.

(** One entry of the call log: the call, and the error it threw if any. *)
Inductive Event : Type :=
| Ev {A : Type} (c : Call A) (err : option Error).

Definition ev_error (ev : Event) : option Error :=
  match ev with Ev _ err => err end.

(** The call went to [ssh2-sftp-client]. *)
Definition is_client_call {A} (c : Call A) : bool :=
  match c with
  | ClientConnect _ | ClientEnd | ClientList _ | ClientPut _ _
  | ClientGet _ _ | ClientGetBuffer _ | ClientDelete _ | ClientMkdir _ _
  | ClientRmdir _ _ | ClientRename _ _ | ClientChmod _ _ | ClientExists _
  | ClientStat _ | ClientUploadDir _ _ | ClientDownloadDir _ _
  | ClientCwd => true
  | _ => false
  end.

Definition is_client_event (ev : Event) : bool :=
  match ev with Ev c _ => is_client_call c end.

(** The call went straight to the operating system ([fs], [process]). *)
Definition is_local_event (ev : Event) : bool :=
  negb (is_client_event ev).

(** ** String helpers of the JavaScript runtime *)

(** [s.includes(c)] for a one-character [c]. *)
Fixpoint includes (c : ascii) (s : string) : bool :=
  match s with
  | EmptyString => false
  | String c' s' => Ascii.eqb c' c || includes c s'
  end.

(** [s.split(sep)] for a one-character separator. *)
Fixpoint split (sep : ascii) (s : string) : list string :=
  match s with
  | EmptyString => [EmptyString]
  | String c s' =>
      if Ascii.eqb c sep then EmptyString :: split sep s'
      else match split sep s' with
           | [] => [String c EmptyString]
           | p :: ps => String c p :: ps
           end
  end.

(** White space skipped by [parseInt]: tab, the line terminators,
    vertical tab, form feed, space and the no-break space (all there is
    of it below 256). *)
Definition is_space (c : ascii) : bool :=
  let n := Z.of_nat (nat_of_ascii c) in
  ((9 <=? n) && (n <=? 13)) || (n =? 32) || (n =? 160).

Fixpoint trim_left (s : string) : string :=
  match s with
  | String c s' => if is_space c then trim_left s' else s
  | EmptyString => EmptyString
  end.

Definition digit_value (c : ascii) : option Z :=
  let n := Z.of_nat (nat_of_ascii c) in
  if (48 <=? n) && (n <=? 57) then Some (n - 48)
  else if (97 <=? n) && (n <=? 122) then Some (n - 87)
  else if (65 <=? n) && (n <=? 90) then Some (n - 55)
  else None.

(** The longest prefix of [s] made of digits below [radix], as a number;
    [acc] is what has been read so far, [None] when nothing has. *)
Fixpoint digits (radix : Z) (s : string) (acc : option Z) : option Z :=
  match s with
  | EmptyString => acc
  | String c s' =>
      match digit_value c with
      | Some d =>
          if d <? radix
          then digits radix s'
                 (Some (match acc with Some a => a * radix + d | None => d end))
          else acc
      | None => acc
      end
  end.

(** [parseInt(s, radix)]; [radix = None] is a call with one argument and
    the result [None] is [NaN]. *)
Definition parseInt (s : string) (radix : option Z) : option Z :=
  let s1 := trim_left s in
  let '(neg, s2) :=
    match s1 with
    | String "-" r => (true, r)
    | String "+" r => (false, r)
    | _ => (false, s1)
    end in
  let '(strip, R) :=
    match radix with
    | None => (true, 10)
    | Some r => if r =? 0 then (true, 10) else (r =? 16, r)
    end in
  if (R <? 2) || (36 <? R) then None
  else
    let '(R', s3) :=
      match s2 with
      | String "0" (String x r) =>
          if strip && (Ascii.eqb x "x" || Ascii.eqb x "X")
          then (16, r) else (R, s2)
      | _ => (R, s2)
      end in
    match digits R' s3 None with
    | Some n => Some (if neg then - n else n)
    | None => None
    end.

(** A number inside a template literal. *)
Definition string_of_Z (n : Z) : string :=
  NilZero.string_of_int (Z.to_int n).

(** Truthiness of an optional string property: absent and [''] are falsy. *)
Definition truthy_str (s : option string) : bool :=
  match s with
  | Some s' => negb (s' =? "")%string
  | None => false
  end.

(** Truthiness of [config.privateKey]: a [Buffer] is an object, so always
    truthy; a path is truthy unless empty. *)
Definition truthy_key (k : option (string + list Byte.byte)) : bool :=
  match k with
  | Some (inl keyPath) => negb (keyPath =? "")%string
  | Some (inr _) => true
  | None => false
  end.

(** [n || d] for an optional number: absent, [NaN] and [0] give [d]. *)
Definition or_num (n : option Z) (d : Z) : Z :=
  match n with
  | Some n' => if n' =? 0 then d else n'
  | None => d
  end.

(** [(this.config as any).password = ...] and its siblings: one property
    of the stored config is overwritten. *)
Definition with_password (c : SFTPConfig) (p : option string) : SFTPConfig :=
  {| host := host c; port := port c; username := username c;
     password := p; privateKey := privateKey c; passphrase := passphrase c;
     retries := retries c; retry_factor := retry_factor c;
     retry_minTimeout := retry_minTimeout c |}.

Definition with_privateKey (c : SFTPConfig)
  (k : option (string + list Byte.byte)) : SFTPConfig :=
  {| host := host c; port := port c; username := username c;
     password := password c; privateKey := k; passphrase := passphrase c;
     retries := retries c; retry_factor := retry_factor c;
     retry_minTimeout := retry_minTimeout c |}.

Definition with_passphrase (c : SFTPConfig) (p : option string) : SFTPConfig :=
  {| host := host c; port := port c; username := username c;
     password := password c; privateKey := privateKey c; passphrase := p;
     retries := retries c; retry_factor := retry_factor c;
     retry_minTimeout := retry_minTimeout c |}.

(** ** The monad the facade runs in *)

(** The state a method runs against: the instance fields ([self]), the
    outside world and the log of the external calls made so far, oldest
    first. *)
Record State (W : Type) : Type := mkState {
  self : SFTPClient;
  world : W;
  trace : list Event
}.
Arguments mkState {W} _ _ _.
Arguments self {W} _.
Arguments world {W} _.
Arguments trace {W} _.

(** How a method ends: it returns (an [async] method resolves) or it
    throws (the promise rejects). *)
Inductive Outcome (A : Type) : Type :=
| Returned (a : A)
| Thrown (e : Error).
Arguments Returned {A} a.
Arguments Thrown {A} e.

Definition M (W A : Type) : Type := State W -> Outcome A * State W.

Definition ret {W A} (a : A) : M W A := fun st => (Returned a, st).

Definition bind {W A B} (m : M W A) (k : A -> M W B) : M W B :=
  fun st =>
    match m st with
    | (Returned a, st') => k a st'
    | (Thrown e, st') => (Thrown e, st')
    end.

(** [throw new Error(msg)]. *)
Definition throw {W A} (e : Error) : M W A := fun st => (Thrown e, st).

(** [try { body } catch (error) { handler }]: what [body] wrote before it
    threw stays written. *)
Definition try_catch {W A} (body : M W A) (handler : Error -> M W A) : M W A :=
  fun st =>
    match body st with
    | (Returned a, st') => (Returned a, st')
    | (Thrown e, st') => handler e st'
    end.

Declare Scope facade_scope.
Delimit Scope facade_scope with facade.
Notation "x <- m ;; k" := (bind m (fun x => k))
  (at level 61, m at next level, right associativity) : facade_scope.
Notation "m ;; k" := (bind m (fun _ => k))
  (at level 61, right associativity) : facade_scope.
Local Open Scope facade_scope.

(** Reads and writes of the instance fields. *)
Definition get_connected {W} : M W bool :=
  fun st => (Returned (connected (self st)), st).

Definition set_connected {W} (b : bool) : M W unit :=
  fun st =>
    (Returned tt,
     mkState {| connected := b; config := config (self st) |}
             (world st) (trace st)).

Definition get_config {W} : M W (option SFTPConfig) :=
  fun st => (Returned (config (self st)), st).

Definition set_config {W} (c : option SFTPConfig) : M W unit :=
  fun st =>
    (Returned tt,
     mkState {| connected := connected (self st); config := c |}
             (world st) (trace st)).

(** [this.config.k = v]: a write through [this.config], which throws a
    [TypeError] should the field hold [null]. *)
Definition modify_config {W} (f : SFTPConfig -> SFTPConfig) : M W unit :=
  fun st =>
    match config (self st) with
    | Some c =>
        (Returned tt,
         mkState {| connected := connected (self st); config := Some (f c) |}
                 (world st) (trace st))
    | None => (Thrown (mkError "Cannot set properties of null"), st)
    end.

(** An external call: the world answers and moves on, the call is logged,
    and an error the world raises is thrown at the call site. *)
Definition io {W A} (env : Env W) (c : Call A) : M W A :=
  fun st =>
    match handle env c (world st) with
    | (Ok a, w') =>
        (Returned a, mkState (self st) w' (trace st ++ [Ev c None]))
    | (Raise e, w') =>
        (Thrown e, mkState (self st) w' (trace st ++ [Ev c (Some e)]))
    end.

(** A call into the runtime library that computes a value or throws and
    touches nothing outside: it is not logged. *)
Definition library {W A} (r : Reply A) : M W A :=
  fun st =>
    match r with
    | Ok a => (Returned a, st)
    | Raise e => (Thrown e, st)
    end.

(** [items.map(f)] for an [f] that may throw or call out. *)
Fixpoint mapM {W A B} (f : A -> M W B) (items : list A) : M W (list B) :=
  match items with
  | [] => ret []
  | x :: rest =>
      y <- f x ;;
      ys <- mapM f rest ;;
      ret (y :: ys)
  end.

(** [for (const item of items) { body }]. *)
Fixpoint for_of {W A} (items : list A) (body : A -> M W unit) : M W unit :=
  match items with
  | [] => ret tt
  | x :: rest => body x ;; for_of rest body
  end.

(** ** class SFTPClient *)

Section Facade.

Context {W : Type} (env : Env W).

(** *** Private helper methods *)

(** [checkConnection()]. *)
Definition checkConnection : M W unit :=
  c <- get_connected ;;
  if negb c then throw (mkError "Not connected to server") else ret tt.

(** [isLocalhost()]: [this.config?.host === 'localhost' ||
    this.config?.host === '127.0.0.1']. *)
Definition isLocalhost : M W bool :=
  c <- get_config ;;
  ret match c with
      | Some cfg => (host cfg =? "localhost")%string
                    || (host cfg =? "127.0.0.1")%string
      | None => false
      end.

(** *** Localhost operations (Node.js fs operations) *)

Definition listLocal (dirPath : string) : M W OperationResult :=
  try_catch
    (items <- io env (FsReaddirSync dirPath) ;;
     files <- mapM (fun item =>
                let fullPath := path_join env dirPath (dirent_name item) in
                stats <- io env (FsStatSync fullPath) ;;
                ret (VObj
                  [("type", VStr (if dirent_isDirectory item then "d" else "-"));
                   ("name", VStr (dirent_name item));
                   ("size", get_prop (stats_fields stats) "size");
                   ("modifyTime", get_prop (stats_fields stats) "mtimeMs");
                   ("accessTime", get_prop (stats_fields stats) "atimeMs");
                   ("rights", VObj [("user", VStr "rwx");
                                    ("group", VStr "r-x");
                                    ("other", VStr "r-x")])]))
              items ;;
     ret [("success", VBool true);
          ("message", VStr "Files listed successfully");
          ("data", VArr files)])
    (fun error =>
     ret [("success", VBool false);
          ("message", VStr "Failed to list files");
          ("error", VStr (message error))]).

Definition putLocal (localPath remotePath : string) : M W OperationResult :=
  try_catch
    (io env (FsCopyFileSync localPath remotePath) ;;
     ret [("success", VBool true);
          ("message", VStr "File copied successfully");
          ("data", VObj [("localPath", VStr localPath);
                         ("remotePath", VStr remotePath)])])
    (fun error =>
     ret [("success", VBool false);
          ("message", VStr "Copy failed");
          ("error", VStr (message error))]).

Definition getLocal (remotePath localPath : string) : M W OperationResult :=
  putLocal remotePath localPath.

Definition deleteLocal (filePath : string) : M W OperationResult :=
  try_catch
    (io env (FsUnlinkSync filePath) ;;
     ret [("success", VBool true);
          ("message", VStr "File deleted successfully");
          ("data", VObj [("filePath", VStr filePath)])])
    (fun error =>
     ret [("success", VBool false);
          ("message", VStr "Delete failed");
          ("error", VStr (message error))]).

Definition mkdirLocal (dirPath : string) (recursive : bool)
  : M W OperationResult :=
  try_catch
    (io env (FsMkdirSync dirPath recursive) ;;
     ret [("success", VBool true);
          ("message", VStr "Directory created successfully");
          ("data", VObj [("dirPath", VStr dirPath)])])
    (fun error =>
     ret [("success", VBool false);
          ("message", VStr "Failed to create directory");
          ("error", VStr (message error))]).

Definition rmdirLocal (dirPath : string) (recursive : bool)
  : M W OperationResult :=
  try_catch
    (io env (FsRmSync dirPath recursive true) ;;
     ret [("success", VBool true);
          ("message", VStr "Directory removed successfully");
          ("data", VObj [("dirPath", VStr dirPath)])])
    (fun error =>
     ret [("success", VBool false);
          ("message", VStr "Failed to remove directory");
          ("error", VStr (message error))]).

Definition renameLocal (oldPath newPath : string) : M W OperationResult :=
  try_catch
    (io env (FsRenameSync oldPath newPath) ;;
     ret [("success", VBool true);
          ("message", VStr "Renamed successfully");
          ("data", VObj [("oldPath", VStr oldPath);
                         ("newPath", VStr newPath)])])
    (fun error =>
     ret [("success", VBool false);
          ("message", VStr "Rename failed");
          ("error", VStr (message error))]).

Definition chmodLocal (filePath : string) (mode : Mode)
  : M W OperationResult :=
  try_catch
    (let modeNum := match mode with
                    | ModeStr s => parseInt s (Some 8)
                    | ModeNum n => Some n
                    end in
     io env (FsChmodSync filePath modeNum) ;;
     ret [("success", VBool true);
          ("message", VStr "Permissions changed successfully");
          ("data", VObj [("filePath", VStr filePath);
                         ("mode", mode_val mode)])])
    (fun error =>
     ret [("success", VBool false);
          ("message", VStr "Failed to change permissions");
          ("error", VStr (message error))]).

Definition existsLocal (filePath : string) : M W OperationResult :=
  try_catch
    (exists_ <- io env (FsExistsSync filePath) ;;
     type <- (if exists_ : bool
              then stats <- io env (FsStatSync filePath) ;;
                   ret (VStr (if stats_isDirectory stats then "d" else "-"))
              else ret VNull) ;;
     ret [("success", VBool true);
          ("message", VStr "Checked existence");
          ("data", VObj [("exists", VBool exists_); ("type", type)])])
    (fun error =>
     ret [("success", VBool false);
          ("message", VStr "Failed to check existence");
          ("error", VStr (message error))]).

Definition statLocal (filePath : string) : M W OperationResult :=
  try_catch
    (stats <- io env (FsStatSync filePath) ;;
     ret [("success", VBool true);
          ("message", VStr "Stats retrieved successfully");
          ("data", VObj (stats_fields stats))])
    (fun error =>
     ret [("success", VBool false);
          ("message", VStr "Failed to get stats");
          ("error", VStr (message error))]).

Definition readFileLocal (filePath encoding : string) : M W OperationResult :=
  try_catch
    (content <- io env (FsReadFileSyncEnc filePath encoding) ;;
     ret [("success", VBool true);
          ("message", VStr "File read successfully");
          ("data", VObj [("content", VStr content)])])
    (fun error =>
     ret [("success", VBool false);
          ("message", VStr "Failed to read file");
          ("error", VStr (message error))]).

Definition writeFileLocal (filePath : string)
  (content : string + list Byte.byte) (encoding : string)
  : M W OperationResult :=
  try_catch
    (io env (FsWriteFileSync filePath content encoding) ;;
     ret [("success", VBool true);
          ("message", VStr "File written successfully");
          ("data", VObj [("filePath", VStr filePath)])])
    (fun error =>
     ret [("success", VBool false);
          ("message", VStr "Failed to write file");
          ("error", VStr (message error))]).

(** [copyDirRecursive(src, dest)].  The first argument is the number of
    stack frames the engine still grants: a recursion that runs out of
    them throws a [RangeError], which the caller's [catch] sees like any
    other error. *)
Fixpoint copyDirRecursive (frames : nat) (src dest : string) : M W unit :=
  match frames with
  | O => throw (mkError "Maximum call stack size exceeded")
  | S frames' =>
      there <- io env (FsExistsSync dest) ;;
      (if negb there then io env (FsMkdirSync dest true) else ret tt) ;;
      items <- io env (FsReaddirSync src) ;;
      for_of items (fun item =>
        let srcPath := path_join env src (dirent_name item) in
        let destPath := path_join env dest (dirent_name item) in
        if dirent_isDirectory item
        then copyDirRecursive frames' srcPath destPath
        else io env (FsCopyFileSync srcPath destPath))
  end.

Definition putDirLocal (srcDir destDir : string) : M W OperationResult :=
  try_catch
    (copyDirRecursive (stack_limit env) srcDir destDir ;;
     ret [("success", VBool true);
          ("message", VStr "Directory copied successfully");
          ("data", VObj [("srcDir", VStr srcDir);
                         ("destDir", VStr destDir)])])
    (fun error =>
     ret [("success", VBool false);
          ("message", VStr "Failed to copy directory");
          ("error", VStr (message error))]).

Definition getDirLocal (srcDir destDir : string) : M W OperationResult :=
  putDirLocal srcDir destDir.

(** *** Public methods *)

(** [connect(config)]. *)
Definition connect (cfg : SFTPConfig) : M W OperationResult :=
  try_catch
    (if (host cfg =? "localhost")%string || (host cfg =? "127.0.0.1")%string
     then
       set_connected true ;;
       set_config (Some cfg) ;;
       ret [("success", VBool true);
            ("message", VStr "Connected to localhost")]
     else
       let host0 := host cfg in
       let port0 := or_num (port cfg) 22 in
       let '(host1, port1) :=
         if includes ":" host0
         then let parts := split ":" host0 in
              (nth 0 parts "",
               or_num match nth_error parts 1 with
                      | Some p => parseInt p None
                      | None => None
                      end port0)
         else (host0, port0) in
       let base :=
         {| host := host1;
            port := Some port1;
            username := username cfg;
            password := None;
            privateKey := None;
            passphrase := None;
            retries := Some (or_num (retries cfg) 3);
            retry_factor := Some (or_num (retry_factor cfg) 2);
            retry_minTimeout := Some (or_num (retry_minTimeout cfg) 2000) |} in
       set_config (Some base) ;;
       (if truthy_str (password cfg)
        then modify_config (fun c => with_password c (password cfg))
        else if truthy_key (privateKey cfg)
        then
          match privateKey cfg with
          | Some (inl keyPath) =>
              bytes <- io env (FsReadFileSync keyPath) ;;
              modify_config (fun c => with_privateKey c (Some (inr bytes)))
          | other =>
              modify_config (fun c => with_privateKey c other)
          end ;;
          (if truthy_str (passphrase cfg)
           then modify_config (fun c => with_passphrase c (passphrase cfg))
           else ret tt)
        else throw (mkError "Password or private key is required")) ;;
       stored <- get_config ;;
       io env (ClientConnect stored) ;;
       set_connected true ;;
       ret [("success", VBool true);
            ("message",
             VStr ("Connected to " ++ host1 ++ ":" ++ string_of_Z port1))])
    (fun error =>
     set_connected false ;;
     ret [("success", VBool false);
          ("message", VStr "Connection failed");
          ("error", VStr (message error))]).

(** [disconnect()]. *)
Definition disconnect : M W OperationResult :=
  try_catch
    (loc <- isLocalhost ;;
     if loc : bool
     then set_connected false ;;
          ret [("success", VBool true);
               ("message", VStr "Disconnected from localhost")]
     else io env ClientEnd ;;
          set_connected false ;;
          ret [("success", VBool true);
               ("message", VStr "Disconnected successfully")])
    (fun error =>
     ret [("success", VBool false);
          ("message", VStr "Disconnect failed");
          ("error", VStr (message error))]).

(** [list(remotePath = '/')]; [list_] here, [list] being the type of
    lists. *)
Definition list_ (remotePath_opt : option string) : M W OperationResult :=
  let remotePath := match remotePath_opt with Some p => p | None => "/" end in
  checkConnection ;;
  try_catch
    (loc <- isLocalhost ;;
     if loc : bool
     then listLocal remotePath
     else
       list <- io env (ClientList remotePath) ;;
       let files :=
         map (fun item : Obj =>
                VObj [("type", get_prop item "type");
                      ("name", get_prop item "name");
                      ("size", get_prop item "size");
                      ("modifyTime", get_prop item "modifyTime");
                      ("accessTime", get_prop item "accessTime");
                      ("rights", get_prop item "rights");
                      ("owner", get_prop item "owner");
                      ("group", get_prop item "group");
                      ("longname", get_prop item "longname")])
             list in
       ret [("success", VBool true);
            ("message", VStr "Files listed successfully");
            ("data", VArr files)])
    (fun error =>
     ret [("success", VBool false);
          ("message", VStr "Failed to list files");
          ("error", VStr (message error))]).

(** [put(localPath, remotePath)]. *)
Definition put (localPath remotePath : string) : M W OperationResult :=
  checkConnection ;;
  try_catch
    (loc <- isLocalhost ;;
     if loc : bool
     then putLocal localPath remotePath
     else
       io env (ClientPut (inl localPath) remotePath) ;;
       ret [("success", VBool true);
            ("message", VStr "File uploaded successfully");
            ("data", VObj [("localPath", VStr localPath);
                          ("remotePath", VStr remotePath)])])
    (fun error =>
     ret [("success", VBool false);
          ("message", VStr "Upload failed");
          ("error", VStr (message error))]).

(** [get(remotePath, localPath)]. *)
Definition get (remotePath localPath : string) : M W OperationResult :=
  checkConnection ;;
  try_catch
    (loc <- isLocalhost ;;
     if loc : bool
     then getLocal remotePath localPath
     else
       io env (ClientGet remotePath localPath) ;;
       ret [("success", VBool true);
            ("message", VStr "File downloaded successfully");
            ("data", VObj [("remotePath", VStr remotePath);
                          ("localPath", VStr localPath)])])
    (fun error =>
     ret [("success", VBool false);
          ("message", VStr "Download failed");
          ("error", VStr (message error))]).

(** [delete(remotePath)]. *)
Definition delete (remotePath : string) : M W OperationResult :=
  checkConnection ;;
  try_catch
    (loc <- isLocalhost ;;
     if loc : bool
     then deleteLocal remotePath
     else
       io env (ClientDelete remotePath) ;;
       ret [("success", VBool true);
            ("message", VStr "File deleted successfully");
            ("data", VObj [("remotePath", VStr remotePath)])])
    (fun error =>
     ret [("success", VBool false);
          ("message", VStr "Delete failed");
          ("error", VStr (message error))]).

(** [mkdir(remotePath, recursive = true)]. *)
Definition mkdir (remotePath : string) (recursive_opt : option bool) : M W OperationResult :=
  let recursive := match recursive_opt with Some r => r | None => true end in
  checkConnection ;;
  try_catch
    (loc <- isLocalhost ;;
     if loc : bool
     then mkdirLocal remotePath recursive
     else
       io env (ClientMkdir remotePath recursive) ;;
       ret [("success", VBool true);
            ("message", VStr "Directory created successfully");
            ("data", VObj [("remotePath", VStr remotePath)])])
    (fun error =>
     ret [("success", VBool false);
          ("message", VStr "Failed to create directory");
          ("error", VStr (message error))]).

(** [rmdir(remotePath, recursive = true)]. *)
Definition rmdir (remotePath : string) (recursive_opt : option bool) : M W OperationResult :=
  let recursive := match recursive_opt with Some r => r | None => true end in
  checkConnection ;;
  try_catch
    (loc <- isLocalhost ;;
     if loc : bool
     then rmdirLocal remotePath recursive
     else
       io env (ClientRmdir remotePath recursive) ;;
       ret [("success", VBool true);
            ("message", VStr "Directory removed successfully");
            ("data", VObj [("remotePath", VStr remotePath)])])
    (fun error =>
     ret [("success", VBool false);
          ("message", VStr "Failed to remove directory");
          ("error", VStr (message error))]).

(** [rename(oldPath, newPath)]. *)
Definition rename (oldPath newPath : string) : M W OperationResult :=
  checkConnection ;;
  try_catch
    (loc <- isLocalhost ;;
     if loc : bool
     then renameLocal oldPath newPath
     else
       io env (ClientRename oldPath newPath) ;;
       ret [("success", VBool true);
            ("message", VStr "Renamed successfully");
            ("data", VObj [("oldPath", VStr oldPath);
                          ("newPath", VStr newPath)])])
    (fun error =>
     ret [("success", VBool false);
          ("message", VStr "Rename failed");
          ("error", VStr (message error))]).

(** [chmod(remotePath, mode)]. *)
Definition chmod (remotePath : string) (mode : Mode) : M W OperationResult :=
  checkConnection ;;
  try_catch
    (loc <- isLocalhost ;;
     if loc : bool
     then chmodLocal remotePath mode
     else
       io env (ClientChmod remotePath mode) ;;
       ret [("success", VBool true);
            ("message", VStr "Permissions changed successfully");
            ("data", VObj [("remotePath", VStr remotePath);
                          ("mode", mode_val mode)])])
    (fun error =>
     ret [("success", VBool false);
          ("message", VStr "Failed to change permissions");
          ("error", VStr (message error))]).

(** [exists(remotePath)]; [exists_] here, [exists] being a keyword. *)
Definition exists_ (remotePath : string) : M W OperationResult :=
  checkConnection ;;
  try_catch
    (loc <- isLocalhost ;;
     if loc : bool
     then existsLocal remotePath
     else
       result <- io env (ClientExists remotePath) ;;
       ret [("success", VBool true);
            ("message", VStr "Checked existence");
            ("data", VObj [("exists", VBool match result with
                                            | Some _ => true
                                            | None => false
                                            end);
                          ("type", if truthy_str result
                                   then match result with
                                        | Some t => VStr t
                                        | None => VNull
                                        end
                                   else VNull)])])
    (fun error =>
     ret [("success", VBool false);
          ("message", VStr "Failed to check existence");
          ("error", VStr (message error))]).

(** [stat(remotePath)]. *)
Definition stat (remotePath : string) : M W OperationResult :=
  checkConnection ;;
  try_catch
    (loc <- isLocalhost ;;
     if loc : bool
     then statLocal remotePath
     else
       stats <- io env (ClientStat remotePath) ;;
       ret [("success", VBool true);
            ("message", VStr "Stats retrieved successfully");
            ("data", stats)])
    (fun error =>
     ret [("success", VBool false);
          ("message", VStr "Failed to get stats");
          ("error", VStr (message error))]).

(** [readFile(remotePath, encoding = 'utf8')]. *)
Definition readFile (remotePath : string) (encoding_opt : option string) : M W OperationResult :=
  let encoding := match encoding_opt with Some e => e | None => "utf8" end in
  checkConnection ;;
  try_catch
    (loc <- isLocalhost ;;
     if loc : bool
     then readFileLocal remotePath encoding
     else
       buffer <- io env (ClientGetBuffer remotePath) ;;
       content <- library (buffer_toString env buffer encoding) ;;
       ret [("success", VBool true);
            ("message", VStr "File read successfully");
            ("data", VObj [("content", VStr content)])])
    (fun error =>
     ret [("success", VBool false);
          ("message", VStr "Failed to read file");
          ("error", VStr (message error))]).

(** [writeFile(remotePath, content, encoding = 'utf8')]. *)
Definition writeFile (remotePath : string)
  (content : string + list Byte.byte) (encoding_opt : option string) : M W OperationResult :=
  let encoding := match encoding_opt with Some e => e | None => "utf8" end in
  checkConnection ;;
  try_catch
    (loc <- isLocalhost ;;
     if loc : bool
     then writeFileLocal remotePath content encoding
     else
       buffer <- match content with
                 | inl text => library (buffer_from env text encoding)
                 | inr bytes => ret bytes
                 end ;;
       io env (ClientPut (inr buffer) remotePath) ;;
       ret [("success", VBool true);
            ("message", VStr "File written successfully");
            ("data", VObj [("remotePath", VStr remotePath)])])
    (fun error =>
     ret [("success", VBool false);
          ("message", VStr "Failed to write file");
          ("error", VStr (message error))]).

(** [putDir(localDir, remoteDir)]. *)
Definition putDir (localDir remoteDir : string) : M W OperationResult :=
  checkConnection ;;
  try_catch
    (loc <- isLocalhost ;;
     if loc : bool
     then putDirLocal localDir remoteDir
     else
       io env (ClientUploadDir localDir remoteDir) ;;
       ret [("success", VBool true);
            ("message", VStr "Directory uploaded successfully");
            ("data", VObj [("localDir", VStr localDir);
                          ("remoteDir", VStr remoteDir)])])
    (fun error =>
     ret [("success", VBool false);
          ("message", VStr "Failed to upload directory");
          ("error", VStr (message error))]).

(** [getDir(remoteDir, localDir)]. *)
Definition getDir (remoteDir localDir : string) : M W OperationResult :=
  checkConnection ;;
  try_catch
    (loc <- isLocalhost ;;
     if loc : bool
     then getDirLocal remoteDir localDir
     else
       io env (ClientDownloadDir remoteDir localDir) ;;
       ret [("success", VBool true);
            ("message", VStr "Directory downloaded successfully");
            ("data", VObj [("remoteDir", VStr remoteDir);
                          ("localDir", VStr localDir)])])
    (fun error =>
     ret [("success", VBool false);
          ("message", VStr "Failed to download directory");
          ("error", VStr (message error))]).

(** [pwd()]. *)
Definition pwd : M W OperationResult :=
  checkConnection ;;
  try_catch
    (loc <- isLocalhost ;;
     if loc : bool
     then
       cwd <- io env ProcessCwd ;;
       ret [("success", VBool true);
            ("message", VStr "Current directory");
            ("data", VObj [("path", VStr cwd)])]
     else
       pwd <- io env ClientCwd ;;
       ret [("success", VBool true);
            ("message", VStr "Current directory");
            ("data", VObj [("path", VStr pwd)])])
    (fun error =>
     ret [("success", VBool false);
          ("message", VStr "Failed to get current directory");
          ("error", VStr (message error))]).

(** [isConnected()]. *)
Definition isConnected : M W bool := get_connected.

(** [getConfig()]. *)
Definition getConfig : M W (option SFTPConfig) := get_config.

(** *** One call of the public API *)

(** The asynchronous methods of the class with their arguments; an
    argument with a default value is [None] when the caller leaves it
    out. *)
Inductive Op : Type :=
| OpConnect (cfg : SFTPConfig)
| OpDisconnect
| OpList (remotePath : option string)
| OpPut (localPath remotePath : string)
| OpGet (remotePath localPath : string)
| OpDelete (remotePath : string)
| OpMkdir (remotePath : string) (recursive : option bool)
| OpRmdir (remotePath : string) (recursive : option bool)
| OpRename (oldPath newPath : string)
| OpChmod (remotePath : string) (mode : Mode)
| OpExists (remotePath : string)
| OpStat (remotePath : string)
| OpReadFile (remotePath : string) (encoding : option string)
| OpWriteFile (remotePath : string) (content : string + list Byte.byte)
    (encoding : option string)
| OpPutDir (localDir remoteDir : string)
| OpGetDir (remoteDir localDir : string)
| OpPwd.

Definition call (op : Op) : M W OperationResult :=
  match op with
  | OpConnect cfg => connect cfg
  | OpDisconnect => disconnect
  | OpList p => list_ p
  | OpPut l r => put l r
  | OpGet r l => get r l
  | OpDelete p => delete p
  | OpMkdir p r => mkdir p r
  | OpRmdir p r => rmdir p r
  | OpRename o n => rename o n
  | OpChmod p m => chmod p m
  | OpExists p => exists_ p
  | OpStat p => stat p
  | OpReadFile p e => readFile p e
  | OpWriteFile p c e => writeFile p c e
  | OpPutDir l r => putDir l r
  | OpGetDir r l => getDir r l
  | OpPwd => pwd
  end.

(** The methods that start with [this.checkConnection()]: all but
    [connect] and [disconnect]. *)
Definition guarded (op : Op) : bool :=
  match op with
  | OpConnect _ | OpDisconnect => false
  | _ => true
  end.

(** A caller working through a list of calls, each awaited before the
    next; a call that throws leaves the caller to carry on with the next
    one.  The outcomes come back in call order. *)
Fixpoint run_calls (ops : list Op) (st : State W)
  : list (Outcome OperationResult) * State W :=
  match ops with
  | [] => ([], st)
  | op :: rest =>
      let '(out, st') := call op st in
      let '(outs, st'') := run_calls rest st' in
      (out :: outs, st'')
  end.

End Facade.

(** ** Reading a result *)

Definition has_key (k : string) (r : Obj) : bool :=
  match lookup k r with
  | Some _ => true
  | None => false
  end.

(** [r.success === true] and [r.success === false]. *)
Definition is_success (r : OperationResult) : bool :=
  match lookup "success" r with
  | Some (VBool true) => true
  | _ => false
  end.

Definition is_failure (r : OperationResult) : bool :=
  match lookup "success" r with
  | Some (VBool false) => true
  | _ => false
  end.

Definition mem (k : string) (ks : list string) : bool :=
  existsb (String.eqb k) ks.

(** The shape [interface OperationResult] declares, as the facade fills it:
    [success] a boolean and [message] a string, no property beyond the
    four declared ones, [error] (a string) on failures only and [data] on
    successes only. *)
Definition well_formed_result (r : OperationResult) : bool :=
  match lookup "success" r, lookup "message" r with
  | Some (VBool ok), Some (VStr _) =>
      forallb (fun k => mem k ["success"; "message"; "data"; "error"]) (keys r)
      && (if ok
          then negb (has_key "error" r)
          else match lookup "error" r with
               | Some (VStr _) => negb (has_key "data" r)
               | _ => false
               end)
  | _, _ => false
  end.

(** The shape the specification names: the four properties [success],
    [data], [errorKind], [message], with [errorKind] present at least on
    every failure. *)
Definition spec_uniform_shape (r : OperationResult) : bool :=
  match lookup "success" r with
  | Some (VBool ok) =>
      has_key "message" r && (ok || has_key "errorKind" r)
  | _ => false
  end.

(** The error [checkConnection] throws. *)
Definition NotConnected : Error := mkError "Not connected to server".

(** [this.config?.host] names the local machine. *)
Definition localhost_config (c : option SFTPConfig) : bool :=
  match c with
  | Some cfg => (host cfg =? "localhost")%string
                || (host cfg =? "127.0.0.1")%string
  | None => false
  end.

(** A fresh [new SFTPClient()] in world [w], nothing called yet. *)
Definition initial {W} (w : W) : State W := mkState new_SFTPClient w [].

(** The events of [st'] that were logged after [st]. *)
Definition new_events {W} (st st' : State W) : list Event :=
  skipn (length (trace st)) (trace st').

(** ** What a computation logs *)

(** [r] is a failure result that reports the error [e]. *)
Definition reports (r : OperationResult) (e : Error) : Prop :=
  is_failure r = true /\ lookup "error" r = Some (VStr (message e)).

(** Every error logged in [evs] is the error [e] ([None]: none at all). *)
Definition errors_are (e : option Error) (evs : list Event) : Prop :=
  Forall (fun ev => ev_error ev = None \/ ev_error ev = e) evs.

(** A stretch of code without a [catch] of its own, run from [st]: it may
    only add calls of kind [K] to the log; when it returns, its value
    satisfies [Q] and no call has failed; when it throws [e], no call has
    failed with anything but [e]. *)
Definition tr_spec {W A} (K : Event -> bool) (Q : A -> Prop)
  (m : M W A) (st : State W) : Prop :=
  exists evs,
    trace (snd (m st)) = (trace st ++ evs)%list /\
    forallb K evs = true /\
    match fst (m st) with
    | Returned a => Q a /\ errors_are None evs
    | Thrown e => errors_are (Some e) evs
    end.

(** A method body wrapped in its [try]/[catch], run from [st]: it returns
    a well-formed result, logs only calls of kind [K], and if any of them
    failed the result is a failure that reports that very error. *)
Definition op_spec {W} (K : Event -> bool) (m : M W OperationResult)
  (st : State W) : Prop :=
  exists r evs,
    fst (m st) = Returned r /\
    trace (snd (m st)) = (trace st ++ evs)%list /\
    forallb K evs = true /\
    well_formed_result r = true /\
    forall ev e, In ev evs -> ev_error ev = Some e -> reports r e.

(** The kind of call the session in [st] is entitled to: operating-system
    calls when the stored host names the local machine, calls to the SFTP
    library otherwise. *)
Definition session_kind {W} (st : State W) : Event -> bool :=
  if localhost_config (config (self st))
  then is_local_event else is_client_event.

(** In the history [ops] with outcomes [outs], no [connect] has returned a
    success. *)
Fixpoint no_successful_connect (ops : list Op)
  (outs : list (Outcome OperationResult)) : bool :=
  match ops, outs with
  | OpConnect _ :: ops', Returned r :: outs' =>
      negb (is_success r) && no_successful_connect ops' outs'
  | _ :: ops', _ :: outs' => no_successful_connect ops' outs'
  | _, _ => true
  end.

(** A handler that only writes fields and returns a failure result made
    from the error it caught. *)
Definition reporting_handler {W} (h : Error -> M W OperationResult) : Prop :=
  forall e st, exists r,
    fst (h e st) = Returned r /\
    trace (snd (h e st)) = trace st /\
    well_formed_result r = true /\
    reports r e.

(** A computation that leaves the instance fields alone. *)
Definition keeps_self {W A} (m : M W A) : Prop :=
  forall st, self (snd (m st)) = self st.

(** No call of the list is a [connect]. *)
Definition no_connect (ops : list Op) : bool :=
  forallb (fun op => match op with OpConnect _ => false | _ => true end) ops.

(** The host string names the local machine, as [connect] and
    [isLocalhost] both test it. *)
Definition names_local_machine (h : string) : bool :=
  (h =? "localhost")%string || (h =? "127.0.0.1")%string.

(** The host [connect] stores for a server: the part before the first
    [':'] of a [host:port] string. *)
Definition parsed_host (h : string) : string :=
  if includes ":" h then nth 0 (split ":" h) "" else h.

Definition is_success_outcome (o : Outcome OperationResult) : bool :=
  match o with
  | Returned r => is_success r
  | Thrown _ => false
  end.

(** The encoding an operation names is one the runtime takes for the data
    at hand: [Buffer.from] takes it for the text [writeFile] is given,
    [buf.toString] takes it for whatever bytes [readFile] receives.  An
    unknown encoding is not: both throw on it. *)
Definition encoding_accepted {W} (env : Env W) (op : Op) : Prop :=
  match op with
  | OpWriteFile _ (inl text) encoding =>
      exists bytes,
        buffer_from env text
          match encoding with Some e => e | None => "utf8" end = Ok bytes
  | OpReadFile _ encoding =>
      forall bytes, exists text,
        buffer_toString env bytes
          match encoding with Some e => e | None => "utf8" end = Ok text
  | _ => True
  end.

(** ** What a recursive directory copy is *)

(** What copying the entries [items] of [src] into [dest] logs when
    nothing fails: for each entry in turn, one [copyFileSync] from the
    entry under [src] to the entry of the same name under [dest] when it
    is a file, and the log [sub] of copying the sub-directory when it is
    a directory. *)
Fixpoint entries_log (join : string -> string -> string)
  (sub : string -> string -> list Event -> Prop)
  (src dest : string) (items : list Dirent) (evs : list Event) : Prop :=
  match items with
  | [] => evs = []
  | item :: rest =>
      exists first others,
        evs = (first ++ others)%list /\
        (if dirent_isDirectory item
         then sub (join src (dirent_name item))
                  (join dest (dirent_name item)) first
         else first = [Ev (FsCopyFileSync (join src (dirent_name item))
                                          (join dest (dirent_name item)))
                          None]) /\
        entries_log join sub src dest rest others
  end.

(** What a recursive copy of the directory [src] to [dest] logs when
    nothing fails, on a disk whose directories hold what [listing] says,
    down to [depth] levels: [dest] is looked up and, if missing, made;
    [src] is read; its entries are copied as above, sub-directories one
    level further down. *)
Fixpoint copy_log (join : string -> string -> string)
  (listing : string -> list Dirent) (depth : nat)
  (src dest : string) (evs : list Event) : Prop :=
  match depth with
  | O => False
  | S depth' =>
      exists made rest,
        evs = ([Ev (FsExistsSync dest) None] ++ made
               ++ [Ev (FsReaddirSync src) None] ++ rest)%list /\
        (made = [] \/ made = [Ev (FsMkdirSync dest true) None]) /\
        entries_log join (copy_log join listing depth') src dest
                    (listing src) rest
  end.

(** The disk holds under [src] what [listing] says, down to [depth]
    levels, and keeps holding it: whenever it is asked, [readdirSync]
    answers [listing] for [src] and for every directory below it. *)
Fixpoint disk_holds {W} (env : Env W) (listing : string -> list Dirent)
  (depth : nat) (src : string) : Prop :=
  match depth with
  | O => True
  | S depth' =>
      (forall w, fst (handle env (FsReaddirSync src) w) = Ok (listing src)) /\
      Forall (fun item =>
                dirent_isDirectory item = true ->
                disk_holds env listing depth'
                           (path_join env src (dirent_name item)))
             (listing src)
  end.

(** ** Where a client stands in its life *)

(** [st] comes from [st0] by calls of the API among which no [connect]
    returned a success. *)
Definition without_connecting {W} (env : Env W) (st0 st : State W) : Prop :=
  exists history outs,
    run_calls env history st0 = (outs, st) /\
    no_successful_connect history outs = true.



(** [st] is a session on the local machine, respectively on a server. *)
Definition localhost_session {W} (st : State W) : Prop :=
  connected (self st) = true /\ localhost_config (config (self st)) = true.

Definition remote_session {W} (st : State W) : Prop :=
  connected (self st) = true /\ localhost_config (config (self st)) = false.

(** ** What [connect] stores for a server *)

(** The port [connect] settles on: the number after the first [':'] of
    the host when there is one and it parses to a non-zero number, else
    [config.port], else [22]. *)
Definition parsed_port (cfg : SFTPConfig) : Z :=
  if includes ":" (host cfg)
  then or_num match nth_error (split ":" (host cfg)) 1 with
              | Some p => parseInt p None
              | None => None
              end (or_num (port cfg) 22)
  else or_num (port cfg) 22.

(** The object [connect] assigns to [this.config] before it looks at the
    credentials. *)
Definition base_config (cfg : SFTPConfig) : SFTPConfig :=
  {| host := parsed_host (host cfg);
     port := Some (parsed_port cfg);
     username := username cfg;
     password := None;
     privateKey := None;
     passphrase := None;
     retries := Some (or_num (retries cfg) 3);
     retry_factor := Some (or_num (retry_factor cfg) 2);
     retry_minTimeout := Some (or_num (retry_minTimeout cfg) 2000) |}.

(** The four [fs] calls a directory copy is made of. *)
Definition is_copy_call {A} (c : Call A) : bool :=
  match c with
  | FsExistsSync _ | FsMkdirSync _ _ | FsReaddirSync _
  | FsCopyFileSync _ _ => true
  | _ => false
  end.

Definition is_copy_event (ev : Event) : bool :=
  match ev with Ev c _ => is_copy_call c end.

(** The character of a decimal digit [d], and a numeral written with the
    digits [ds], most significant first, with its value in base [R]. *)
Definition digit_char (d : Z) : ascii := ascii_of_nat (Z.to_nat (48 + d)).

Fixpoint numeral (ds : list Z) : string :=
  match ds with
  | [] => EmptyString
  | d :: rest => String (digit_char d) (numeral rest)
  end.

Definition numeral_value (R : Z) (ds : list Z) : Z :=
  fold_left (fun a d => a * R + d) ds 0.

(** The operations whose localhost implementation is a single call to
    the operating system. *)
Definition single_call_op (op : Op) : bool :=
  match op with
  | OpPut _ _ | OpGet _ _ | OpDelete _ | OpMkdir _ _ | OpRmdir _ _
  | OpRename _ _ | OpChmod _ _ | OpStat _ | OpReadFile _ _
  | OpWriteFile _ _ _ | OpPwd => true
  | _ => false
  end.

(** ** The command line (src/cli/index.ts) *)

(** What [inquirer.prompt] hands back to [promptConnection]: the host and
    user name typed in, and the password or the key path, whichever the
    chosen authentication method asked for. *)
Record Answers : Type := mkAnswers {
  answers_host : string;
  answers_username : string;
  answers_password : option string;
  answers_privateKey : option string
}.

(** [promptConnection()], from the answers on: a [host:port] answer is
    cut in two, and the object returned is the config [connectAndLaunch]
    passes to [client.connect]. *)
Definition promptConnection (answers : Answers) : SFTPConfig :=
  let host0 := answers_host answers in
  let port0 := 22 in
  let '(host1, port1) :=
    if includes ":" host0
    then let parts := split ":" host0 in
         (nth 0 parts "",
          or_num match nth_error parts 1 with
                 | Some p => parseInt p None
                 | None => None
                 end 22)
    else (host0, port0) in
  {| host := host1;
     port := Some port1;
     username := answers_username answers;
     password := answers_password answers;
     privateKey := match answers_privateKey answers with
                   | Some keyPath => Some (inl keyPath)
                   | None => None
                   end;
     passphrase := None;
     retries := None;
     retry_factor := None;
     retry_minTimeout := None |}.

(** ** The web widget's paths (class WebUI) *)

(** An entry of [this.files], as far as navigation reads it. *)
Record FileItem : Type := mkFileItem {
  item_type : string;
  item_name : string
}.

(** The path [openFolder(index)] hands to [loadFiles]; [None] when it
    returns without loading, the entry missing or not a directory. *)
Definition openFolder_newPath (files : list FileItem) (currentPath : string)
  (index : nat) : option string :=
  match nth_error files index with
  | Some file =>
      if negb (item_type file =? "d")%string then None
      else Some (if (currentPath =? "/")%string
                 then "/" ++ item_name file
                 else currentPath ++ "/" ++ item_name file)
  | None => None
  end.

(** The path [goBack()] hands to [loadFiles]; [None] when it is already
    at the root and only logs. *)
Definition goBack_newPath (currentPath : string) : option string :=
  if (currentPath =? "/")%string then None
  else
    let parts := filter (fun p => negb (p =? "")%string)
                        (split "/" currentPath) in
    let parts := removelast parts in
    Some (if Nat.eqb (length parts) 0
          then "/"
          else "/" ++ String.concat "/" parts).

(** A path as the widget writes it: ["/"] followed by the segments joined
    with ["/"]; a segment is a non-empty name without ["/"]. *)
Definition path_of (segments : list string) : string :=
  "/" ++ String.concat "/" segments.

Definition segment (s : string) : bool :=
  negb (s =? "")%string && negb (includes "/" s).

(** ** Sample worlds *)

(** What a call yields when nothing goes wrong and nothing is there. *)
Definition default_reply {A} (c : Call A) : A :=
  match c in Call T return T with
  | ClientList _ => []
  | ClientGetBuffer _ => []
  | ClientExists _ => None
  | ClientStat _ => VObj []
  | ClientCwd => "/"
  | FsReadFileSync _ => []
  | FsReadFileSyncEnc _ _ => ""
  | FsReaddirSync _ => []
  | FsStatSync _ => mkStats [] false
  | FsExistsSync _ => true
  | ProcessCwd => "/"
  | _ => tt
  end.

(** The listing of the specification's scenario. *)
Definition home_user : list Obj :=
  [ [("type", VStr "d"); ("name", VStr "docs"); ("size", VNum 0);
     ("modifyTime", VNum 1700000000000); ("accessTime", VNum 1700000000001)];
    [("type", VStr "-"); ("name", VStr "a.txt"); ("size", VNum 120);
     ("modifyTime", VNum 1700000000002); ("accessTime", VNum 1700000000003)] ].

(** A server that accepts every login, lists [/home/user] as above and
    answers a rename with the failure status [NoSuchFile]; a local disk on
    which every call succeeds.  The world state counts the calls. *)
Definition sample_handle (A : Type) (c : Call A) (w : nat) : Reply A * nat :=
  match c in Call T return Reply T * nat with
  | ClientList "/home/user" => (Ok home_user, S w)
  | ClientRename _ _ => (Raise (mkError "NoSuchFile"), S w)
  | c' => (Ok (default_reply c'), S w)
  end.

Definition sample_env : Env nat :=
  {| handle := sample_handle;
     path_join := fun a b => a ++ "/" ++ b;
     buffer_from := fun _ _ => Ok [];
     buffer_toString := fun _ _ => Ok "";
     stack_limit := 1000 |}.

(** A server nobody can reach: every call to the SFTP library throws. *)
Definition offline_handle (A : Type) (c : Call A) (w : nat) : Reply A * nat :=
  if is_client_call c then (Raise (mkError "ECONNREFUSED"), S w)
  else (Ok (default_reply c), S w).

Definition offline_env : Env nat :=
  {| handle := offline_handle;
     path_join := fun a b => a ++ "/" ++ b;
     buffer_from := fun _ _ => Ok [];
     buffer_toString := fun _ _ => Ok "";
     stack_limit := 1000 |}.

(** Configs used in the examples. *)
Definition cfg_of (h : string) (pw : option string) : SFTPConfig :=
  {| host := h; port := None; username := "user"; password := pw;
     privateKey := None; passphrase := None; retries := None;
     retry_factor := None; retry_minTimeout := None |}.

(** The client after [connect] to [example.com] with a password, and after
    [connect] to [localhost], both in the sample world. *)
Definition remote_state : State nat :=
  snd (connect sample_env (cfg_of "example.com" (Some "pw")) (initial 0%nat)).

Definition local_state : State nat :=
  snd (connect sample_env (cfg_of "localhost" None) (initial 0%nat)).

(** The result the specification's rename scenario names. *)
Definition spec_rename_failure : OperationResult :=
  [("success", VBool false);
   ("errorKind", VStr "RemoteOperationError");
   ("message", VStr "NoSuchFile")].

(** A config with a password and a key, sent to [example.com]. *)
Definition cfg_both : SFTPConfig :=
  {| host := "example.com"; port := Some 2200; username := "user";
     password := Some "pw"; privateKey := Some (inl "/home/user/.ssh/id");
     passphrase := Some "secret"; retries := None; retry_factor := None;
     retry_minTimeout := None |}.

(** A config with a key path only. *)
Definition cfg_key : SFTPConfig :=
  {| host := "example.com"; port := None; username := "user";
     password := None; privateKey := Some (inl "/home/user/.ssh/id");
     passphrase := Some "secret"; retries := None; retry_factor := None;
     retry_minTimeout := None |}.

(** A local disk with something on it: [/srv] holds the directory
    [docs] (empty) and the file [a.txt]; [/gone] and [/backup] do not
    exist; every other call succeeds.  The world state counts the
    calls. *)
Definition disk_handle (A : Type) (c : Call A) (w : nat) : Reply A * nat :=
  match c in Call T return Reply T * nat with
  | FsReaddirSync "/srv" =>
      (Ok [mkDirent "docs" true; mkDirent "a.txt" false], S w)
  | FsExistsSync "/gone" => (Ok false, S w)
  | FsExistsSync "/backup" => (Ok false, S w)
  | FsExistsSync "/backup/docs" => (Ok false, S w)
  | FsStatSync "/srv/a.txt" =>
      (Ok (mkStats [("size", VNum 120); ("mtimeMs", VNum 1700000000002);
                    ("atimeMs", VNum 1700000000003)] false), S w)
  | FsStatSync _ =>
      (Ok (mkStats [("size", VNum 4096); ("mtimeMs", VNum 1700000000000);
                    ("atimeMs", VNum 1700000000001)] true), S w)
  | c' => (Ok (default_reply c'), S w)
  end.

Definition disk_env : Env nat :=
  {| handle := disk_handle;
     path_join := fun a b => a ++ "/" ++ b;
     buffer_from := fun _ _ => Ok [];
     buffer_toString := fun _ _ => Ok "";
     stack_limit := 1000 |}.

(** What the directories of that disk hold. *)
Definition srv_listing (p : string) : list Dirent :=
  if (p =? "/srv")%string
  then [mkDirent "docs" true; mkDirent "a.txt" false]
  else [].

(** The result of a call that returned. *)
Definition returned (o : Outcome OperationResult) : OperationResult :=
  match o with
  | Returned r => r
  | Thrown _ => []
  end.

(** * Properties *)

Section Properties.

Local Open Scope list_scope.

Context {W : Type} (env : Env W).

(** ** The connection guard *)

Lemma checkConnection_refuses (st : State W) :
  connected (self st) = false ->
  checkConnection st = (Thrown NotConnected, st).
Proof.
  intros H. unfold checkConnection, bind, get_connected. rewrite H. reflexivity.
Qed.

Lemma checkConnection_passes (st : State W) :
  connected (self st) = true ->
  checkConnection st = (Returned tt, st).
Proof.
  intros H. unfold checkConnection, bind, get_connected. rewrite H. reflexivity.
Qed.

(** A guarded method called on a client whose flag is down throws
    [NotConnected] and leaves fields, world and call log as they were. *)
Lemma guarded_refuses (op : Op) (st : State W) :
  guarded op = true ->
  connected (self st) = false ->
  call env op st = (Thrown NotConnected, st).
Proof.
  intros G H.
  destruct op; try discriminate G; cbn [call];
    unfold list_, put, get, delete, mkdir, rmdir, rename, chmod, exists_,
      stat, readFile, writeFile, putDir, getDir, pwd;
    cbv zeta; unfold bind at 1; rewrite (checkConnection_refuses st H);
    reflexivity.
Qed.

(** ** Rules for code without a handler *)

Lemma errors_are_weaken (e : option Error) (evs : list Event) :
  errors_are None evs -> errors_are e evs.
Proof.
  unfold errors_are. intros H. eapply Forall_impl; [| exact H].
  intros ev [Hn | Hn]; left; exact Hn.
Qed.

Lemma tr_ret {A} K (Q : A -> Prop) (a : A) (st : State W) :
  Q a -> tr_spec K Q (ret a) st.
Proof.
  intros HQ. exists []. cbn. rewrite app_nil_r.
  repeat split; [exact HQ | constructor].
Qed.

Lemma tr_throw {A} K (Q : A -> Prop) (e : Error) (st : State W) :
  tr_spec K Q (throw e) st.
Proof.
  exists []. cbn. rewrite app_nil_r. repeat split. constructor.
Qed.

Lemma tr_bind {A B} K (P : A -> Prop) (Q : B -> Prop)
  (m : M W A) (k : A -> M W B) (st : State W) :
  tr_spec K P m st ->
  (forall a st', P a -> tr_spec K Q (k a) st') ->
  tr_spec K Q (bind m k) st.
Proof.
  intros (evs & Ht & HK & Hm) Hk. unfold tr_spec, bind.
  destruct (m st) as [[a | e] st1]; cbn [fst snd] in *.
  - destruct Hm as [HP Hn].
    destruct (Hk a st1 HP) as (evs' & Ht' & HK' & Hm').
    exists (evs ++ evs'). rewrite Ht', Ht, app_assoc. split; [reflexivity |].
    split; [rewrite forallb_app, HK, HK'; reflexivity |].
    destruct (fst (k a st1)).
    + destruct Hm' as [HQ Hn']. split; [exact HQ |].
      apply Forall_app; split; assumption.
    + apply Forall_app; split; [apply errors_are_weaken |]; assumption.
  - exists evs. repeat split; assumption.
Qed.

Lemma tr_io {A} K (Q : A -> Prop) (c : Call A) (st : State W) :
  (forall err, K (Ev c err) = true) ->
  (forall a, Q a) ->
  tr_spec K Q (io env c) st.
Proof.
  intros HK HQ. unfold tr_spec, io.
  destruct (handle env c (world st)) as [[a | e] w']; cbn [fst snd trace].
  - exists [Ev c None]. cbn. rewrite HK. repeat split; [apply HQ |].
    constructor; [left; reflexivity | constructor].
  - exists [Ev c (Some e)]. cbn. rewrite HK. repeat split.
    constructor; [right; reflexivity | constructor].
Qed.

Lemma tr_library {A} K (Q : A -> Prop) (r : Reply A) (st : State W) :
  (forall a, Q a) -> tr_spec K Q (library r) st.
Proof.
  intros HQ. exists []. rewrite app_nil_r. unfold library.
  destruct r as [a | e]; cbn; repeat split; try apply HQ; constructor.
Qed.

Lemma tr_weaken {A} K (P Q : A -> Prop) (m : M W A) (st : State W) :
  (forall a, P a -> Q a) -> tr_spec K P m st -> tr_spec K Q m st.
Proof.
  intros HPQ (evs & Ht & HK & Hm). exists evs.
  destruct (fst (m st)); repeat split; try tauto.
  apply HPQ; tauto.
Qed.

Lemma tr_mapM {A B} K (f : A -> M W B) (items : list A) :
  (forall x st', tr_spec K (fun _ => True) (f x) st') ->
  forall st, tr_spec K (fun _ => True) (mapM f items) st.
Proof.
  intros Hf. induction items as [| x rest IH]; intros st; cbn [mapM].
  - apply tr_ret. exact I.
  - eapply tr_bind; [apply Hf |]. intros y st1 _.
    eapply tr_bind; [apply IH |]. intros ys st2 _.
    apply tr_ret. exact I.
Qed.

Lemma tr_for_of {A} K (body : A -> M W unit) (items : list A) :
  (forall x st', tr_spec K (fun _ => True) (body x) st') ->
  forall st, tr_spec K (fun _ => True) (for_of items body) st.
Proof.
  intros Hb. induction items as [| x rest IH]; intros st; cbn [for_of].
  - apply tr_ret. exact I.
  - eapply tr_bind; [apply Hb |]. intros _ st1 _. apply IH.
Qed.

(** The recursive copy only ever touches the local disk, however deep it
    goes; the induction is on the stack frames left. *)
Lemma tr_copyDirRecursive (frames : nat) :
  forall src dest st,
    tr_spec is_local_event (fun _ => True)
      (copyDirRecursive env frames src dest) st.
Proof.
  induction frames as [| frames' IH]; intros src dest st;
    cbn [copyDirRecursive].
  - apply tr_throw.
  - eapply tr_bind; [apply tr_io with (Q := fun _ => True); auto |].
    intros there st1 _.
    eapply tr_bind with (P := fun _ => True).
    { destruct there; cbn [negb];
        [apply tr_ret; exact I | apply tr_io; auto]. }
    intros _ st2 _.
    eapply tr_bind; [apply tr_io with (Q := fun _ => True); auto |].
    intros items st3 _.
    apply tr_for_of. intros item st4.
    destruct (dirent_isDirectory item); [apply IH | apply tr_io; auto].
Qed.

(** ** Rules for a method body inside its [try]/[catch] *)

Lemma op_try K (body : M W OperationResult) h (st : State W) :
  tr_spec K (fun r => well_formed_result r = true) body st ->
  reporting_handler h ->
  op_spec K (try_catch body h) st.
Proof.
  intros (evs & Ht & HK & Hb) Hh. unfold op_spec, try_catch.
  destruct (body st) as [[r | e] st1]; cbn [fst snd] in *.
  - destruct Hb as [Hwf Hn]. exists r, evs. repeat split; try assumption.
    all: unfold errors_are in Hn; rewrite Forall_forall in Hn;
      destruct (Hn ev H) as [Hx | Hx]; congruence.
  - destruct (Hh e st1) as (r & Hr & Htr & Hwf & Hrep).
    exists r, evs. rewrite Htr. repeat split; try assumption.
    all: unfold errors_are in Hb; rewrite Forall_forall in Hb;
      destruct (Hb ev H) as [Hx | Hx]; try congruence;
      assert (e0 = e) by congruence; subst e0; apply Hrep.
Qed.

(** A body that already is a finished method: the outer handler never
    runs. *)
Lemma op_try_outer K (m : M W OperationResult) h (st : State W) :
  op_spec K m st -> op_spec K (try_catch m h) st.
Proof.
  intros (r & evs & Hr & Ht & HK & Hwf & Herr). unfold op_spec, try_catch.
  destruct (m st) as [[r' | e] st1]; cbn [fst snd] in *; [| discriminate].
  exists r, evs. repeat split; try assumption; apply (Herr ev e); assumption.
Qed.

Lemma op_weaken (K K' : Event -> bool) (m : M W OperationResult) st :
  (forall ev, K ev = true -> K' ev = true) ->
  op_spec K m st -> op_spec K' m st.
Proof.
  intros HKK (r & evs & Hr & Ht & HK & Hwf & Herr).
  exists r, evs. repeat split; try assumption; try (apply (Herr ev e); assumption).
  rewrite forallb_forall in *. intros ev Hin. apply HKK, HK, Hin.
Qed.

Lemma try_isLocalhost {A} (k : bool -> M W A) h (st : State W) :
  try_catch (bind isLocalhost k) h st
  = try_catch (k (localhost_config (config (self st)))) h st.
Proof. reflexivity. Qed.

Lemma literal_handler (msg : string) :
  reporting_handler (W := W) (fun error =>
    ret [("success", VBool false);
         ("message", VStr msg);
         ("error", VStr (message error))]).
Proof.
  intros e st. eexists. cbn [ret fst snd]. repeat split; reflexivity.
Qed.

(** ** The localhost methods *)

Ltac tr_steps :=
  repeat first
    [ apply tr_ret; reflexivity
    | apply tr_ret; exact I
    | apply tr_throw
    | apply tr_io; [intros; reflexivity | intros; exact I]
    | apply tr_library; intros; exact I
    | match goal with
      | |- tr_spec _ _ (match ?c with inl _ => _ | inr _ => _ end) _ =>
          destruct c
      end
    | eapply tr_bind with (P := fun _ => True); [ | intros ? ? _ ] ].

Ltac op_simple :=
  intros; apply op_try; [cbv zeta; tr_steps | apply literal_handler].

Lemma listLocal_spec dirPath st :
  op_spec is_local_event (listLocal env dirPath) st.
Proof.
  op_simple. apply tr_mapM. intros ? ?. tr_steps.
Qed.

Lemma putLocal_spec a b st : op_spec is_local_event (putLocal env a b) st.
Proof. op_simple. Qed.

Lemma deleteLocal_spec p st : op_spec is_local_event (deleteLocal env p) st.
Proof. op_simple. Qed.

Lemma mkdirLocal_spec p r st : op_spec is_local_event (mkdirLocal env p r) st.
Proof. op_simple. Qed.

Lemma rmdirLocal_spec p r st : op_spec is_local_event (rmdirLocal env p r) st.
Proof. op_simple. Qed.

Lemma renameLocal_spec a b st : op_spec is_local_event (renameLocal env a b) st.
Proof. op_simple. Qed.

Lemma chmodLocal_spec p m st : op_spec is_local_event (chmodLocal env p m) st.
Proof. op_simple. Qed.

Lemma existsLocal_spec p st : op_spec is_local_event (existsLocal env p) st.
Proof.
  op_simple.
  match goal with
  | |- tr_spec _ _ (if ?there then _ else _) _ => destruct there
  end; tr_steps.
Qed.

Lemma statLocal_spec p st : op_spec is_local_event (statLocal env p) st.
Proof. op_simple. Qed.

Lemma readFileLocal_spec p e st :
  op_spec is_local_event (readFileLocal env p e) st.
Proof. op_simple. Qed.

Lemma writeFileLocal_spec p c e st :
  op_spec is_local_event (writeFileLocal env p c e) st.
Proof. op_simple. Qed.

Lemma putDirLocal_spec a b st : op_spec is_local_event (putDirLocal env a b) st.
Proof.
  op_simple. apply tr_copyDirRecursive.
Qed.

(** ** The public methods *)

(** The frame every guarded method is built on: the guard, then one
    [try] whose body picks the local or the remote implementation. *)
Lemma op_guarded (L R : M W OperationResult) h (st : State W) :
  connected (self st) = true ->
  op_spec is_local_event (try_catch L h) st ->
  op_spec is_client_event (try_catch R h) st ->
  op_spec (session_kind st)
    (checkConnection ;;
     try_catch (loc <- isLocalhost ;; if loc : bool then L else R) h) st.
Proof.
  intros Hc HL HR. unfold op_spec, session_kind in *.
  unfold bind at 1 3. rewrite (checkConnection_passes st Hc).
  rewrite try_isLocalhost.
  destruct (localhost_config (config (self st))); assumption.
Qed.

Ltac op_public spec :=
  apply op_guarded;
  [ assumption
  | apply op_try_outer; apply spec
  | apply op_try; [cbv zeta; tr_steps | apply literal_handler] ].

Lemma guarded_op_spec (op : Op) (st : State W) :
  guarded op = true ->
  connected (self st) = true ->
  op_spec (session_kind st) (call env op) st.
Proof.
  intros G Hc.
  destruct op; try discriminate G; cbn [call];
    unfold list_, put, get, delete, mkdir, rmdir, rename, chmod, exists_,
      stat, readFile, writeFile, putDir, getDir, pwd, getLocal, getDirLocal;
    cbv zeta.
  - op_public listLocal_spec.
  - op_public putLocal_spec.
  - op_public putLocal_spec.
  - op_public deleteLocal_spec.
  - op_public mkdirLocal_spec.
  - op_public rmdirLocal_spec.
  - op_public renameLocal_spec.
  - op_public chmodLocal_spec.
  - op_public existsLocal_spec.
  - op_public statLocal_spec.
  - op_public readFileLocal_spec.
  - op_public writeFileLocal_spec.
  - op_public putDirLocal_spec.
  - op_public putDirLocal_spec.
  - apply op_guarded; [assumption | |];
      (apply op_try; [tr_steps | apply literal_handler]).
Qed.

(** ** [connect] and [disconnect] *)

(** Code that logs nothing, such as a field write. *)
Lemma tr_quiet {A} K (m : M W A) (st : State W) :
  trace (snd (m st)) = trace st -> tr_spec K (fun _ => True) m st.
Proof.
  intros Ht. exists []. rewrite app_nil_r.
  destruct (fst (m st)); repeat split; try assumption; constructor.
Qed.

Lemma tr_modify_config K f (st : State W) :
  tr_spec K (fun _ => True) (modify_config f) st.
Proof.
  apply tr_quiet. unfold modify_config. destruct (config (self st)); reflexivity.
Qed.

Ltac tr_fields :=
  repeat first
    [ apply tr_ret; reflexivity
    | apply tr_ret; exact I
    | apply tr_throw
    | apply tr_modify_config
    | apply tr_quiet; reflexivity
    | apply tr_io; [intros; reflexivity | intros; exact I]
    | eapply tr_bind with (P := fun _ => True); [ | intros ? ? _ ] ].

Lemma disconnect_spec (st : State W) :
  op_spec (session_kind st) (disconnect env) st.
Proof.
  unfold disconnect, op_spec, session_kind. rewrite try_isLocalhost.
  destruct (localhost_config (config (self st)));
    (apply op_try; [tr_fields | apply literal_handler]).
Qed.

Lemma connect_handler :
  reporting_handler (W := W) (fun error : Error =>
    set_connected false ;;
    ret [("success", VBool false);
         ("message", VStr "Connection failed");
         ("error", VStr (message error))]).
Proof.
  intros e st. eexists. cbn. repeat split; reflexivity.
Qed.

Lemma connect_spec (cfg : SFTPConfig) (st : State W) :
  op_spec (fun _ => true) (connect env cfg) st.
Proof.
  unfold connect. apply op_try; [| apply connect_handler].
  destruct ((host cfg =? "localhost")%string || (host cfg =? "127.0.0.1")%string).
  - tr_fields.
  - cbv zeta. destruct (includes ":" (host cfg)); cbv beta iota zeta;
      tr_fields;
      (destruct (truthy_str (password cfg)); [tr_fields |]);
      (destruct (truthy_key (privateKey cfg)); [| tr_fields]);
      tr_fields;
      try (destruct (privateKey cfg) as [[keyPath | bytes] |]; tr_fields);
      try (destruct (truthy_str (passphrase cfg)); tr_fields).
Qed.

(** Every call of the API, from any state in which it gets past the
    guard, returns a well-formed result that reports whatever error an
    external call raised. *)
Lemma call_spec (op : Op) (st : State W) :
  (guarded op = true -> connected (self st) = true) ->
  op_spec (fun _ => true) (call env op) st.
Proof.
  intros Hc. destruct (guarded op) eqn:G.
  - eapply op_weaken; [| apply guarded_op_spec; auto]. reflexivity.
  - destruct op; try discriminate G; cbn [call].
    + apply connect_spec.
    + eapply op_weaken; [| apply disconnect_spec]. reflexivity.
Qed.

(** ** The [connected] flag *)

Ltac run_method :=
  unfold try_catch, bind, io, isLocalhost, set_connected, set_config,
    modify_config, get_config, get_connected, ret, throw;
  cbn [self world trace connected config fst snd].

Ltac run_method_in H :=
  unfold try_catch, bind, io, isLocalhost, set_connected, set_config,
    modify_config, get_config, get_connected, ret, throw in H;
  cbn [self world trace connected config fst snd] in H.

Ltac case_io :=
  repeat match goal with
         | |- context [handle env ?c ?w] =>
             destruct (handle env c w) as [[? | ?] ?];
             cbn [self world trace connected config fst snd]
         end.

(** [connect] always returns, and the flag it leaves is the [success] it
    reports. *)
Lemma connect_flag (cfg : SFTPConfig) (st : State W) :
  exists r st',
    connect env cfg st = (Returned r, st') /\
    connected (self st') = is_success r /\
    is_failure r = negb (is_success r).
Proof.
  unfold connect.
  destruct ((host cfg =? "localhost")%string || (host cfg =? "127.0.0.1")%string).
  - run_method. eexists _, _. repeat split.
  - cbv zeta. destruct (includes ":" (host cfg)); cbv beta iota zeta;
      (destruct (truthy_str (password cfg));
       [| destruct (truthy_key (privateKey cfg));
          [destruct (privateKey cfg) as [[keyPath | bytes] |];
           destruct (truthy_str (passphrase cfg)) |]]);
      run_method; case_io; eexists _, _; repeat split.
Qed.

(** A [disconnect] that reports success has lowered the flag; one called
    with the flag down leaves it down. *)
Lemma disconnect_flag (st : State W) :
  exists r st',
    disconnect env st = (Returned r, st') /\
    (is_success r = true -> connected (self st') = false) /\
    (connected (self st) = false -> connected (self st') = false).
Proof.
  unfold disconnect. rewrite try_isLocalhost.
  destruct (localhost_config (config (self st)));
    run_method; case_io; eexists _, _; repeat split; cbn; congruence.
Qed.

(** As long as no [connect] succeeds the flag stays down, whatever else is
    called; by induction on the history. *)
Lemma flag_stays_down (history : list Op) :
  forall st outs st',
    connected (self st) = false ->
    run_calls env history st = (outs, st') ->
    no_successful_connect history outs = true ->
    connected (self st') = false.
Proof.
  induction history as [| op rest IH]; intros st outs st' Hdown Hrun Hno.
  - cbn in Hrun. congruence.
  - cbn [run_calls] in Hrun.
    destruct (call env op st) as [out st1] eqn:Hop.
    destruct (run_calls env rest st1) as [outs1 st2] eqn:Hrest.
    injection Hrun as <- <-.
    assert (Hst1 : connected (self st1) = false).
    { destruct (guarded op) eqn:G.
      - rewrite (guarded_refuses op st G Hdown) in Hop. congruence.
      - destruct op; try discriminate G; cbn [call] in Hop.
        + destruct (connect_flag cfg st) as (r & st1' & Hc & Hflag & _).
          rewrite Hc in Hop. injection Hop as <- <-.
          cbn in Hno. rewrite Hflag.
          destruct (is_success r); [discriminate | reflexivity].
        + destruct (disconnect_flag st) as (r & st1' & Hd & _ & Hkeep).
          rewrite Hd in Hop. injection Hop as <- <-. auto. }
    apply (IH st1 outs1 st2 Hst1 Hrest).
    destruct op, out; cbn in Hno; try assumption.
    apply andb_true_iff in Hno. tauto.
Qed.

(** ** The guard, before and after a session *)


(** C10: [connect] is atomic with respect to the [connected] flag.  When
    it returns a [{success: false}] result the client is left not
    connected ([isConnected()] is [false]), so every guarded operation
    called afterwards, for as long as no [connect] succeeds, throws the
    not-connected error without any I/O, the very outcome it has on a
    client on which [connect] was never called. *)
Theorem C10_failed_connect_leaves_disconnected
  (cfg : SFTPConfig) (st st' st'' : State W) (r : OperationResult)
  (op : Op) (w0 : W) :
  call env (OpConnect cfg) st = (Returned r, st') ->
  is_failure r = true ->
  without_connecting env st' st'' ->
  guarded op = true ->
  connected (self st') = false /\
  isConnected st' = (Returned false, st') /\
  call env op st'' = (Thrown NotConnected, st'') /\
  fst (call env op st'') = fst (call env op (initial w0)).
Proof.
  intros Hc Hf (history & outs & Hrun & Hno) G. cbn [call] in Hc.
  destruct (connect_flag cfg st) as (r' & st1 & Hc' & Hflag & Hneg).
  rewrite Hc in Hc'. injection Hc' as <- <-.
  assert (Hdown : connected (self st') = false).
  { rewrite Hflag. rewrite Hneg in Hf. destruct (is_success r);
      [discriminate | reflexivity]. }
  assert (Hdown' : connected (self st'') = false).
  { apply (flag_stays_down history st' outs st''); assumption. }
  split; [exact Hdown |]. split.
  - unfold isConnected, get_connected. rewrite Hdown. reflexivity.
  - rewrite (guarded_refuses op st'' G Hdown').
    rewrite (guarded_refuses op (initial w0) G eq_refl). split; reflexivity.
Qed.

(** A [disconnect] that fails has not disconnected: on a remote session
    whose [client.end()] throws, the result is a failure and the flag
    stays up. *)
Lemma failed_disconnect_stays_connected (st : State W) (e : Error) (w' : W) :
  remote_session st ->
  handle env ClientEnd (world st) = (Raise e, w') ->
  disconnect env st
  = (Returned [("success", VBool false);
               ("message", VStr "Disconnect failed");
               ("error", VStr (message e))],
     mkState (self st) w' (trace st ++ [Ev ClientEnd (Some e)])).
Proof.
  intros [Hc Hloc] Hh. unfold disconnect. rewrite try_isLocalhost, Hloc.
  run_method. rewrite Hh. reflexivity.
Qed.

(** ** [connect] *)

Lemma connect_localhost (cfg : SFTPConfig) (st : State W) :
  localhost_config (Some cfg) = true ->
  connect env cfg st
  = (Returned [("success", VBool true);
               ("message", VStr "Connected to localhost")],
     mkState {| connected := true; config := Some cfg |}
             (world st) (trace st)).
Proof.
  intros H. unfold connect. cbn [localhost_config] in H. rewrite H. reflexivity.
Qed.

Lemma connect_without_credentials (cfg : SFTPConfig) (st : State W) :
  localhost_config (Some cfg) = false ->
  truthy_str (password cfg) = false ->
  truthy_key (privateKey cfg) = false ->
  exists stored,
    connect env cfg st
    = (Returned [("success", VBool false);
                 ("message", VStr "Connection failed");
                 ("error", VStr "Password or private key is required")],
       mkState {| connected := false; config := Some stored |}
               (world st) (trace st)).
Proof.
  intros H Hp Hk. unfold connect. cbn [localhost_config] in H.
  rewrite H. cbv zeta.
  destruct (includes ":" (host cfg)); cbv beta iota zeta;
    rewrite Hp, Hk; run_method; eexists; reflexivity.
Qed.

(** C8: for a config whose host is exactly ['localhost'] or ['127.0.0.1'],
    [connect] returns [{success: true, message: 'Connected to localhost'}]
    and marks the client connected, whatever the password and private key
    are (present or not) and without any external call; for any other
    host, a config with neither password nor privateKey makes [connect]
    return a failure result, the client left not connected. *)
Theorem C8_connect_localhost_needs_no_credentials
  (cfg : SFTPConfig) (st : State W) :
  (host cfg = "localhost" \/ host cfg = "127.0.0.1" ->
   connect env cfg st
   = (Returned [("success", VBool true);
                ("message", VStr "Connected to localhost")],
      mkState {| connected := true; config := Some cfg |}
              (world st) (trace st)))
  /\
  (host cfg <> "localhost" -> host cfg <> "127.0.0.1" ->
   password cfg = None -> privateKey cfg = None ->
   exists r st',
     connect env cfg st = (Returned r, st') /\
     is_failure r = true /\
     connected (self st') = false /\
     world st' = world st /\ trace st' = trace st).
Proof.
  split.
  - intros H. apply connect_localhost. cbn [localhost_config].
    destruct H as [-> | ->]; reflexivity.
  - intros H1 H2 Hp Hk.
    destruct (connect_without_credentials cfg st) as (stored & Hc).
    + cbn [localhost_config]. apply orb_false_iff.
      split; apply String.eqb_neq; assumption.
    + rewrite Hp. reflexivity.
    + rewrite Hk. reflexivity.
    + rewrite Hc. eexists _, _. repeat split.
Qed.

(** ** Localhost sessions: [get]/[put] and [getDir]/[putDir] *)

(** Past the guard, a method is its [try] around the implementation the
    stored host selects. *)
Lemma guarded_frame (L R : M W OperationResult) h (st : State W) :
  connected (self st) = true ->
  (checkConnection ;;
   try_catch (loc <- isLocalhost ;; if loc : bool then L else R) h) st
  = try_catch (if localhost_config (config (self st)) then L else R) h st.
Proof.
  intros Hc. unfold bind at 1. rewrite (checkConnection_passes st Hc).
  rewrite try_isLocalhost. reflexivity.
Qed.

(** The local file copy, spelled out: one [fs.copyFileSync(a, b)]. *)
Lemma putLocal_runs (a b : string) (st : State W) :
  putLocal env a b st
  = match handle env (FsCopyFileSync a b) (world st) with
    | (Ok _, w') =>
        (Returned [("success", VBool true);
                   ("message", VStr "File copied successfully");
                   ("data", VObj [("localPath", VStr a);
                                  ("remotePath", VStr b)])],
         mkState (self st) w' (trace st ++ [Ev (FsCopyFileSync a b) None]))
    | (Raise e, w') =>
        (Returned [("success", VBool false);
                   ("message", VStr "Copy failed");
                   ("error", VStr (message e))],
         mkState (self st) w'
                 (trace st ++ [Ev (FsCopyFileSync a b) (Some e)]))
    end.
Proof.
  unfold putLocal. run_method.
  destruct (handle env (FsCopyFileSync a b) (world st)) as [[[] | e] w'];
    reflexivity.
Qed.

Lemma putDirLocal_returns (a b : string) (st : State W) :
  exists r st', putDirLocal env a b st = (Returned r, st').
Proof.
  unfold putDirLocal, try_catch, bind, ret.
  destruct (copyDirRecursive env (stack_limit env) a b st) as [[[] | e] st'];
    eexists _, _; reflexivity.
Qed.

(** A method that returns makes an outer [try] transparent. *)
Lemma try_catch_returned {A} (m : M W A) h (st : State W) r st' :
  m st = (Returned r, st') -> try_catch m h st = (Returned r, st').
Proof. intros H. unfold try_catch. rewrite H. reflexivity. Qed.

(** What a computation that returned went through. *)
Lemma bind_returned {A B} (m : M W A) (k : A -> M W B)
  (st st' : State W) (b : B) :
  bind m k st = (Returned b, st') ->
  exists a st1, m st = (Returned a, st1) /\ k a st1 = (Returned b, st').
Proof.
  unfold bind. destruct (m st) as [[a | e] st1]; [| discriminate].
  intros H. exists a, st1. split; [reflexivity | exact H].
Qed.

Lemma io_returned {A} (c : Call A) (st st1 : State W) (a : A) :
  io env c st = (Returned a, st1) ->
  exists w',
    handle env c (world st) = (Ok a, w') /\
    st1 = mkState (self st) w' (trace st ++ [Ev c None]).
Proof.
  unfold io. destruct (handle env c (world st)) as [[a' | e] w'];
    [| discriminate].
  intros H. injection H as <- <-. exists w'. split; reflexivity.
Qed.

(** The loop of [copyDirRecursive], given what the recursive calls log. *)
Lemma for_of_copy_log (listing : string -> list Dirent) (frames' : nat)
  (src dest : string) :
  (forall src' dest' st st',
     disk_holds env listing frames' src' ->
     copyDirRecursive env frames' src' dest' st = (Returned tt, st') ->
     exists evs,
       trace st' = trace st ++ evs /\
       copy_log (path_join env) listing frames' src' dest' evs) ->
  forall items st st',
    Forall (fun item =>
              dirent_isDirectory item = true ->
              disk_holds env listing frames'
                         (path_join env src (dirent_name item))) items ->
    for_of items (fun item =>
      let srcPath := path_join env src (dirent_name item) in
      let destPath := path_join env dest (dirent_name item) in
      if dirent_isDirectory item
      then copyDirRecursive env frames' srcPath destPath
      else io env (FsCopyFileSync srcPath destPath)) st = (Returned tt, st') ->
    exists evs,
      trace st' = trace st ++ evs /\
      entries_log (path_join env)
        (copy_log (path_join env) listing frames') src dest items evs.
Proof.
  intros IH. induction items as [| item rest IHitems]; intros st st' Hsub Hrun.
  - cbn in Hrun. injection Hrun as <-. exists []. rewrite app_nil_r.
    split; reflexivity.
  - cbn [for_of] in Hrun.
    apply bind_returned in Hrun. destruct Hrun as ([] & st1 & Hitem & Hrest).
    inversion Hsub as [| item' rest' Hdir Hsub']; subst.
    destruct (IHitems st1 st' Hsub' Hrest) as (others & Ht & Hlog).
    cbv zeta in Hitem. cbn [entries_log].
    destruct (dirent_isDirectory item) eqn:Hkind.
    + destruct (IH _ _ _ _ (Hdir eq_refl) Hitem) as (first & Ht1 & Hlog1).
      exists (first ++ others). rewrite Ht, Ht1, app_assoc.
      split; [reflexivity |]. exists first, others. repeat split; assumption.
    + apply io_returned in Hitem. destruct Hitem as (w' & _ & ->).
      cbn [trace] in Ht. eexists. rewrite Ht, <- app_assoc.
      split; [reflexivity |]. eexists _, others.
      split; [reflexivity |]. split; [reflexivity | exact Hlog].
Qed.

(** A recursive copy that returns has logged a recursive copy of what
    the disk holds; by induction on the stack frames. *)
Lemma copyDirRecursive_log (listing : string -> list Dirent) (frames : nat) :
  forall src dest st st',
    disk_holds env listing frames src ->
    copyDirRecursive env frames src dest st = (Returned tt, st') ->
    exists evs,
      trace st' = trace st ++ evs /\
      copy_log (path_join env) listing frames src dest evs.
Proof.
  induction frames as [| frames' IH]; intros src dest st st' Hdisk Hrun.
  - cbn in Hrun. discriminate.
  - cbn [copyDirRecursive] in Hrun. cbn [disk_holds] in Hdisk.
    destruct Hdisk as [Hlist Hsub].
    apply bind_returned in Hrun. destruct Hrun as (there & st1 & H1 & Hrun).
    apply io_returned in H1. destruct H1 as (w1 & _ & ->).
    apply bind_returned in Hrun. destruct Hrun as ([] & st2 & H2 & Hrun).
    apply bind_returned in Hrun. destruct Hrun as (items & st3 & H3 & Hrun).
    apply io_returned in H3. destruct H3 as (w3 & Hh3 & ->).
    assert (Hitems : items = listing src).
    { specialize (Hlist (world st2)). rewrite Hh3 in Hlist. cbn in Hlist.
      congruence. }
    subst items.
    destruct (for_of_copy_log listing frames' src dest IH _ _ _ Hsub Hrun)
      as (rest & Ht & Hlog).
    cbn [trace] in Ht. cbn [copy_log].
    destruct there; cbn [negb] in H2.
    + injection H2 as <-. cbn [trace] in Ht.
      eexists. rewrite Ht, <- !app_assoc. split; [reflexivity |].
      exists [], rest. split; [reflexivity |]. split; [left; reflexivity |].
      exact Hlog.
    + apply io_returned in H2. destruct H2 as (w2 & _ & ->).
      cbn [trace] in Ht.
      eexists. rewrite Ht, <- !app_assoc. split; [reflexivity |].
      exists [Ev (FsMkdirSync dest true) None], rest.
      split; [reflexivity |]. split; [right; reflexivity |]. exact Hlog.
Qed.

(** C9: on a localhost session [get(a, b)] and [put(a, b)] are the same
    operation: each is the one local copy of the file at [a] to [b]
    ([fs.copyFileSync(a, b)]), with the same result and the same effect;
    likewise [getDir(a, b)] and [putDir(a, b)] are the same recursive
    directory copy from [a] to [b]: when it succeeds on a disk whose
    directories hold what [listing] says, what it has done is
    [copy_log]: [b] looked up and made if missing, [a] read, each file
    of [a] copied to the same name under [b], each sub-directory copied
    likewise, in the order of the listing, and nothing else.  The
    direction in the name is ignored. *)
Theorem C9_localhost_get_is_put (a b : string) (st : State W) :
  localhost_session st ->
  call env (OpGet a b) st = call env (OpPut a b) st /\
  call env (OpGet a b) st
  = match handle env (FsCopyFileSync a b) (world st) with
    | (Ok _, w') =>
        (Returned [("success", VBool true);
                   ("message", VStr "File copied successfully");
                   ("data", VObj [("localPath", VStr a);
                                  ("remotePath", VStr b)])],
         mkState (self st) w' (trace st ++ [Ev (FsCopyFileSync a b) None]))
    | (Raise e, w') =>
        (Returned [("success", VBool false);
                   ("message", VStr "Copy failed");
                   ("error", VStr (message e))],
         mkState (self st) w'
                 (trace st ++ [Ev (FsCopyFileSync a b) (Some e)]))
    end /\
  call env (OpGetDir a b) st = call env (OpPutDir a b) st /\
  call env (OpGetDir a b) st = putDirLocal env a b st /\
  (forall (listing : string -> list Dirent) r st',
     disk_holds env listing (stack_limit env) a ->
     call env (OpGetDir a b) st = (Returned r, st') ->
     is_success r = true ->
     copy_log (path_join env) listing (stack_limit env) a b
              (new_events st st')).
Proof.
  intros [Hc Hloc]. cbn [call]. unfold get, put, getDir, putDir.
  rewrite !(guarded_frame _ _ _ st Hc), Hloc.
  unfold getLocal, getDirLocal.
  assert (Hfile : forall h, try_catch (putLocal env a b) h st
                            = putLocal env a b st).
  { intros h. rewrite putLocal_runs.
    destruct (handle env (FsCopyFileSync a b) (world st)) as [[[] | e] w'] eqn:E;
      (erewrite try_catch_returned; [reflexivity |]);
      rewrite putLocal_runs, E; reflexivity. }
  assert (Hdir : forall h, try_catch (putDirLocal env a b) h st
                           = putDirLocal env a b st).
  { intros h. destruct (putDirLocal_returns a b st) as (r & st' & Hr).
    rewrite Hr. apply try_catch_returned. exact Hr. }
  rewrite !Hfile, !Hdir, <- putLocal_runs.
  split; [reflexivity |]. split; [reflexivity |].
  split; [reflexivity |]. split; [reflexivity |].
  intros listing r st' Hdisk Hrun Hok.
  unfold putDirLocal, try_catch, bind, ret in Hrun.
  destruct (copyDirRecursive env (stack_limit env) a b st)
    as [[[] | e] st1] eqn:Hcopy; injection Hrun as <- <-.
  - destruct (copyDirRecursive_log listing _ _ _ _ _ Hdisk Hcopy)
      as (evs & Ht & Hlog).
    unfold new_events. rewrite Ht, skipn_app, skipn_all, Nat.sub_diag.
    exact Hlog.
  - discriminate Hok.
Qed.

(** ** Remote sessions: [rename] and [list] *)

(** C4, as the code has it: when the server answers [rename(a, b)] with a
    failure whose detail is [detail] (['NoSuchFile'] in the scenario), the
    facade on a connected remote session returns exactly
    [{success: false, message: 'Rename failed', error: detail}]: the
    server-provided detail is in the [error] property, [message] is the
    fixed text ['Rename failed'], and there is no [errorKind] property.
    One call went to the server, and the session stays connected. *)
Theorem C4_rename_failure_result
  (a b detail : string) (st : State W) (w' : W) :
  remote_session st ->
  handle env (ClientRename a b) (world st) = (Raise (mkError detail), w') ->
  call env (OpRename a b) st
  = (Returned [("success", VBool false);
               ("message", VStr "Rename failed");
               ("error", VStr detail)],
     mkState (self st) w'
             (trace st ++ [Ev (ClientRename a b) (Some (mkError detail))])).
Proof.
  intros [Hc Hloc] Hh. cbn [call]. unfold rename.
  rewrite (guarded_frame _ _ _ st Hc), Hloc.
  run_method. rewrite Hh. reflexivity.
Qed.

(** The [FileInfo] the facade builds from one entry of a listing. *)
Lemma list_entry_fields (item : Obj) (k : string) :
  In k ["type"; "name"; "size"; "modifyTime"; "accessTime"] ->
  get_prop
    [("type", get_prop item "type");
     ("name", get_prop item "name");
     ("size", get_prop item "size");
     ("modifyTime", get_prop item "modifyTime");
     ("accessTime", get_prop item "accessTime");
     ("rights", get_prop item "rights");
     ("owner", get_prop item "owner");
     ("group", get_prop item "group");
     ("longname", get_prop item "longname")] k
  = get_prop item k.
Proof.
  intros H. cbn in H.
  repeat (destruct H as [<- | H]; [reflexivity |]). contradiction.
Qed.

(** C5: for every listing [items] the underlying client yields for the
    path, the facade [list] on a connected remote session returns
    [{success: true, data: [...]}] where [data] has one entry per listed
    entry, in the same order, and entry [i] of [data] has the [type],
    [name], [size], [modifyTime] and [accessTime] of entry [i] of the
    listing. *)
Theorem C5_list_preserves_order_and_fields
  (remotePath : option string) (items : list Obj)
  (st : State W) (w' : W) :
  remote_session st ->
  handle env (ClientList match remotePath with Some p => p | None => "/" end)
         (world st) = (Ok items, w') ->
  exists data st',
    call env (OpList remotePath) st
    = (Returned [("success", VBool true);
                 ("message", VStr "Files listed successfully");
                 ("data", VArr data)], st') /\
    length data = length items /\
    forall i item,
      nth_error items i = Some item ->
      exists info,
        nth_error data i = Some (VObj info) /\
        forall k,
          In k ["type"; "name"; "size"; "modifyTime"; "accessTime"] ->
          get_prop info k = get_prop item k.
Proof.
  intros [Hc Hloc] Hh. cbn [call]. unfold list_. cbv zeta.
  rewrite (guarded_frame _ _ _ st Hc), Hloc.
  run_method. rewrite Hh. eexists _, _. split; [reflexivity |].
  split; [apply length_map |].
  intros i item Hi. eexists. split.
  - rewrite nth_error_map, Hi. reflexivity.
  - apply list_entry_fields.
Qed.

(** ** The shape of a result *)

Lemma lookup_outside (allowed : list string) (k : string) (r : Obj) :
  forallb (fun k' => mem k' allowed) (keys r) = true ->
  mem k allowed = false ->
  lookup k r = None.
Proof.
  intros Hall Hk. induction r as [| [k' v] rest IH]; [reflexivity |].
  cbn in Hall. apply andb_true_iff in Hall. destruct Hall as [Hk' Hrest].
  cbn [lookup]. destruct (String.eqb_spec k k') as [-> | _].
  - congruence.
  - apply IH, Hrest.
Qed.

(** What [well_formed_result] says, property by property. *)
Lemma well_formed_result_inv (r : OperationResult) :
  well_formed_result r = true ->
  (exists ok text,
     lookup "success" r = Some (VBool ok) /\
     lookup "message" r = Some (VStr text)) /\
  (forall k, mem k ["success"; "message"; "data"; "error"] = false ->
             lookup k r = None) /\
  (is_success r = true -> lookup "error" r = None) /\
  (is_failure r = true ->
   lookup "data" r = None /\ exists text, lookup "error" r = Some (VStr text)).
Proof.
  unfold well_formed_result, is_success, is_failure, has_key.
  destruct (lookup "success" r) as [[| | ok | | | | |] |]; try discriminate.
  destruct (lookup "message" r) as [[| | | | text | | |] |]; try discriminate.
  intros H. apply andb_true_iff in H. destruct H as [Hkeys Hrest].
  split; [eexists _, _; split; reflexivity |].
  split; [intros k Hk; eapply lookup_outside; eassumption |].
  destruct ok.
  - split; [| discriminate]. intros _.
    destruct (lookup "error" r); [discriminate | reflexivity].
  - split; [discriminate |]. intros _.
    destruct (lookup "error" r) as [[| | | | text' | | |] |]; try discriminate.
    destruct (lookup "data" r); [discriminate |].
    split; [reflexivity | eexists; reflexivity].
Qed.

Lemma new_events_app (st st' : State W) (evs : list Event) :
  trace st' = trace st ++ evs -> new_events st st' = evs.
Proof.
  intros H. unfold new_events. rewrite H, skipn_app, skipn_all, Nat.sub_diag.
  reflexivity.
Qed.

(** C1, as the code has it: every facade call that gets past the
    connection guard ([connect] and [disconnect] always, the other
    operations on a connected client) returns a result of the one shape
    [{success: boolean, message: string, data?, error?}].  It has no
    property beyond these four, so no [errorKind]; a failure carries
    [error], a string, and no [data]; a success carries no [error]. *)
Theorem C1_result_shape (op : Op) (st : State W) :
  (guarded op = true -> connected (self st) = true) ->
  exists r st',
    call env op st = (Returned r, st') /\
    (exists ok text,
       lookup "success" r = Some (VBool ok) /\
       lookup "message" r = Some (VStr text)) /\
    (forall k, mem k ["success"; "message"; "data"; "error"] = false ->
               lookup k r = None) /\
    lookup "errorKind" r = None /\
    (is_success r = true -> lookup "error" r = None) /\
    (is_failure r = true ->
     lookup "data" r = None /\
     exists text, lookup "error" r = Some (VStr text)).
Proof.
  intros Hc.
  destruct (call_spec op st Hc) as (r & evs & Hr & _ & _ & Hwf & _).
  destruct (call env op st) as [out st'] eqn:E. cbn [fst] in Hr. subst out.
  exists r, st'. split; [reflexivity |].
  destruct (well_formed_result_inv r Hwf) as (H1 & H2 & H3 & H4).
  repeat split; try assumption.
  - apply H2. reflexivity.
  - apply H4; assumption.
  - apply H4; assumption.
Qed.

(** ** Failures are returned, never thrown *)

(** C3: on a connected client every facade call returns a structured
    result, and whenever one of its external calls (to the SFTP library
    or to the local filesystem) raised an error, that result is
    [{success: false, ...}] carrying the error's message; nothing is
    thrown.  The only exception a facade call ever throws is the
    not-connected precondition error, thrown by a guarded operation on a
    client that is not connected, before any I/O (the state is left as it
    was). *)
Theorem C3_failures_are_returned (op : Op) (st : State W) :
  (connected (self st) = true ->
   exists r st',
     call env op st = (Returned r, st') /\
     (is_success r = true \/ is_failure r = true) /\
     forall ev e,
       In ev (new_events st st') -> ev_error ev = Some e ->
       is_failure r = true /\ lookup "error" r = Some (VStr (message e)))
  /\
  (forall e st',
     call env op st = (Thrown e, st') ->
     e = NotConnected /\ st' = st /\
     guarded op = true /\ connected (self st) = false).
Proof.
  split.
  - intros Hc.
    destruct (call_spec op st (fun _ => Hc))
      as (r & evs & Hr & Ht & _ & Hwf & Herr).
    destruct (call env op st) as [out st'] eqn:E. cbn [fst snd] in *.
    subst out. exists r, st'. split; [reflexivity |].
    split.
    + destruct (well_formed_result_inv r Hwf) as ((ok & text & Hs & _) & _).
      unfold is_success, is_failure. rewrite Hs. destruct ok; auto.
    + rewrite (new_events_app st st' evs Ht). exact Herr.
  - intros e st' Hthrown.
    destruct (guarded op) eqn:G; destruct (connected (self st)) eqn:Hc.
    + destruct (call_spec op st (fun _ => Hc)) as (r & _ & Hr & _).
      rewrite Hthrown in Hr. discriminate.
    + rewrite (guarded_refuses op st G Hc) in Hthrown.
      injection Hthrown as <- <-. repeat split.
    + destruct (call_spec op st) as (r & _ & Hr & _); [congruence |].
      rewrite Hthrown in Hr. discriminate.
    + destruct (call_spec op st) as (r & _ & Hr & _); [congruence |].
      rewrite Hthrown in Hr. discriminate.
Qed.

(** ** One session, one mode *)

Lemma ks_ret {A} (a : A) : keeps_self (W := W) (ret a).
Proof. intros st. reflexivity. Qed.

Lemma ks_throw {A} (e : Error) : keeps_self (W := W) (A := A) (throw e).
Proof. intros st. reflexivity. Qed.

Lemma ks_io {A} (c : Call A) : keeps_self (io env c).
Proof.
  intros st. unfold io.
  destruct (handle env c (world st)) as [[a | e] w']; reflexivity.
Qed.

Lemma ks_library {A} (r : Reply A) : keeps_self (W := W) (library r).
Proof. intros st. unfold library. destruct r; reflexivity. Qed.

Lemma ks_bind {A B} (m : M W A) (k : A -> M W B) :
  keeps_self m -> (forall a, keeps_self (k a)) -> keeps_self (bind m k).
Proof.
  intros Hm Hk st. unfold bind. specialize (Hm st).
  destruct (m st) as [[a | e] st1]; cbn [snd] in *; [| exact Hm].
  rewrite (Hk a st1). exact Hm.
Qed.

Lemma ks_try {A} (m : M W A) (h : Error -> M W A) :
  keeps_self m -> (forall e, keeps_self (h e)) -> keeps_self (try_catch m h).
Proof.
  intros Hm Hh st. unfold try_catch. specialize (Hm st).
  destruct (m st) as [[a | e] st1]; cbn [snd] in *; [exact Hm |].
  rewrite (Hh e st1). exact Hm.
Qed.

Lemma ks_mapM {A B} (f : A -> M W B) (items : list A) :
  (forall x, keeps_self (f x)) -> keeps_self (mapM f items).
Proof.
  intros Hf. induction items as [| x rest IH]; cbn [mapM].
  - apply ks_ret.
  - apply ks_bind; [apply Hf |]. intros y.
    apply ks_bind; [apply IH |]. intros ys. apply ks_ret.
Qed.

Lemma ks_for_of {A} (items : list A) (body : A -> M W unit) :
  (forall x, keeps_self (body x)) -> keeps_self (for_of items body).
Proof.
  intros Hb. induction items as [| x rest IH]; cbn [for_of].
  - apply ks_ret.
  - apply ks_bind; [apply Hb |]. intros _. apply IH.
Qed.

Lemma ks_copyDirRecursive (frames : nat) :
  forall src dest, keeps_self (copyDirRecursive env frames src dest).
Proof.
  induction frames as [| frames' IH]; intros src dest; cbn [copyDirRecursive].
  - apply ks_throw.
  - apply ks_bind; [apply ks_io |]. intros there.
    apply ks_bind; [destruct there; [apply ks_ret | apply ks_io] |]. intros _.
    apply ks_bind; [apply ks_io |]. intros items.
    apply ks_for_of. intros item.
    destruct (dirent_isDirectory item); [apply IH | apply ks_io].
Qed.

Lemma ks_checkConnection : keeps_self (W := W) checkConnection.
Proof.
  intros st. unfold checkConnection, bind, get_connected.
  destruct (connected (self st)); reflexivity.
Qed.

Lemma ks_isLocalhost : keeps_self (W := W) isLocalhost.
Proof. intros st. reflexivity. Qed.

Ltac ks_steps :=
  repeat first
    [ apply ks_ret
    | apply ks_throw
    | apply ks_io
    | apply ks_library
    | match goal with
      | |- keeps_self (match ?c with inl _ => _ | inr _ => _ end) =>
          destruct c
      end
    | apply ks_checkConnection
    | apply ks_isLocalhost
    | apply ks_copyDirRecursive
    | apply ks_mapM; intros
    | apply ks_bind; [| intros]
    | apply ks_try; [| intros]
    | match goal with
      | |- keeps_self (if ?b then _ else _) => destruct b
      end ].

(** No method other than [connect] and [disconnect] writes a field. *)
Lemma guarded_keeps_self (op : Op) :
  guarded op = true -> keeps_self (call env op).
Proof.
  intros G. destruct op; try discriminate G; cbn [call];
    unfold list_, put, get, delete, mkdir, rmdir, rename, chmod, exists_,
      stat, readFile, writeFile, putDir, getDir, pwd, getLocal, getDirLocal,
      listLocal, putLocal, deleteLocal, mkdirLocal, rmdirLocal, renameLocal,
      chmodLocal, existsLocal, statLocal, readFileLocal, writeFileLocal,
      putDirLocal;
    cbv zeta; ks_steps.
Qed.

(** [disconnect] lowers the flag at most; the stored config stays. *)
Lemma disconnect_keeps_config (st : State W) :
  config (self (snd (disconnect env st))) = config (self st).
Proof.
  unfold disconnect. rewrite try_isLocalhost.
  destruct (localhost_config (config (self st)));
    run_method; case_io; reflexivity.
Qed.

Lemma session_kind_config (st st' : State W) :
  config (self st') = config (self st) -> session_kind st' = session_kind st.
Proof. intros H. unfold session_kind. rewrite H. reflexivity. Qed.

(** One call that is not a [connect]: the stored config stays, and every
    external call it makes is of the session's kind. *)
Lemma session_step (op : Op) (st : State W) :
  match op with OpConnect _ => false | _ => true end = true ->
  config (self (snd (call env op st))) = config (self st) /\
  exists evs,
    trace (snd (call env op st)) = trace st ++ evs /\
    forallb (session_kind st) evs = true.
Proof.
  intros Hop. destruct (guarded op) eqn:G.
  - split; [rewrite (guarded_keeps_self op G st); reflexivity |].
    destruct (connected (self st)) eqn:Hc.
    + destruct (guarded_op_spec op st G Hc) as (r & evs & _ & Ht & HK & _).
      exists evs. split; assumption.
    + rewrite (guarded_refuses op st G Hc). exists []. cbn.
      rewrite app_nil_r. split; reflexivity.
  - destruct op; try discriminate; cbn [call].
    split; [apply disconnect_keeps_config |].
    destruct (disconnect_spec st) as (r & evs & _ & Ht & HK & _).
    exists evs. split; assumption.
Qed.

(** However many calls follow, as long as none is a [connect]: the mode
    stays the one the stored config selects.  By induction on the calls. *)
Lemma session_mode_is_stable (ops : list Op) :
  no_connect ops = true ->
  forall st,
    config (self (snd (run_calls env ops st))) = config (self st) /\
    exists evs,
      trace (snd (run_calls env ops st)) = trace st ++ evs /\
      forallb (session_kind st) evs = true.
Proof.
  induction ops as [| op rest IH]; intros Hno st.
  - cbn. split; [reflexivity |]. exists []. rewrite app_nil_r. split; reflexivity.
  - cbn in Hno. apply andb_true_iff in Hno. destruct Hno as [Hop Hrest].
    destruct (session_step op st Hop) as (Hcfg & evs & Ht & HK).
    cbn [run_calls]. destruct (call env op st) as [out st1]. cbn [snd] in *.
    destruct (IH Hrest st1) as (Hcfg1 & evs1 & Ht1 & HK1).
    destruct (run_calls env rest st1) as [outs st2]. cbn [snd] in *.
    split; [congruence |]. exists (evs ++ evs1).
    rewrite Ht1, Ht, app_assoc. split; [reflexivity |].
    rewrite forallb_app, HK. rewrite (session_kind_config st st1 Hcfg) in HK1.
    rewrite HK1. reflexivity.
Qed.

(** The mode a successful [connect] selects: local when the host it was
    given names the local machine, and also when the host it stored
    after cutting a [:port] off does. *)
Lemma connect_selects_mode (cfg : SFTPConfig) (st st' : State W)
  (r : OperationResult) :
  connect env cfg st = (Returned r, st') ->
  is_success r = true ->
  connected (self st') = true /\
  localhost_config (config (self st'))
  = names_local_machine (host cfg)
    || names_local_machine (parsed_host (host cfg)).
Proof.
  unfold connect, names_local_machine, parsed_host.
  destruct ((host cfg =? "localhost")%string || (host cfg =? "127.0.0.1")%string)
    eqn:Hlocal.
  - run_method. intros H _. injection H as <- <-. cbn.
    rewrite Hlocal. split; reflexivity.
  - cbv zeta. destruct (includes ":" (host cfg)); cbv beta iota zeta;
      (destruct (truthy_str (password cfg));
       [| destruct (truthy_key (privateKey cfg));
          [destruct (privateKey cfg) as [[keyPath | bytes] |];
           destruct (truthy_str (passphrase cfg)) |]]);
      run_method; case_io; intros H Hs; injection H as <- <-;
      try discriminate Hs; cbn; try rewrite Hlocal; split; reflexivity.
Qed.

(** What holds of the claim C6 on the code: after a successful [connect],
    and until the next [connect], every external call is an
    operating-system call when the given host, or the host left after
    cutting off a [:port], names the local machine, and a call to the
    SFTP library otherwise. *)
Lemma session_never_changes_mode (cfg : SFTPConfig) (st st1 : State W)
  (r : OperationResult) (ops : list Op) :
  connect env cfg st = (Returned r, st1) ->
  is_success r = true ->
  no_connect ops = true ->
  exists evs,
    trace (snd (run_calls env ops st1)) = trace st1 ++ evs /\
    forallb (if names_local_machine (host cfg)
                || names_local_machine (parsed_host (host cfg))
             then is_local_event else is_client_event) evs = true.
Proof.
  intros Hc Hs Hno.
  destruct (connect_selects_mode cfg st st1 r Hc Hs) as [_ Hmode].
  destruct (session_mode_is_stable ops Hno st1) as (_ & evs & Ht & HK).
  exists evs. split; [exact Ht |].
  unfold session_kind in HK. rewrite Hmode in HK. exact HK.
Qed.

(** ** More on sessions *)

(** X1: the mode is fixed by [connect] for the whole session.  After a
    successful [connect], and until the next [connect], the stored config
    never changes and every external call of every operation is an
    operating-system call when the host left after cutting off a [:port]
    names the local machine, and a call to the SFTP library otherwise. *)
Theorem sessions_stay_in_one_mode (cfg : SFTPConfig) (st st1 : State W)
  (r : OperationResult) (ops : list Op) :
  connect env cfg st = (Returned r, st1) ->
  is_success r = true ->
  no_connect ops = true ->
  exists evs,
    trace (snd (run_calls env ops st1)) = trace st1 ++ evs /\
    forallb (if names_local_machine (parsed_host (host cfg))
             then is_local_event else is_client_event) evs = true /\
    config (self (snd (run_calls env ops st1))) = config (self st1).
Proof.
  intros Hc Hs Hno.
  destruct (connect_selects_mode cfg st st1 r Hc Hs) as [_ Hmode].
  destruct (session_mode_is_stable ops Hno st1) as (Hcfg & evs & Ht & HK).
  exists evs. split; [exact Ht |]. split; [| exact Hcfg].
  unfold session_kind in HK. rewrite Hmode in HK.
  destruct (names_local_machine (host cfg)) eqn:Hlocal; cbn [orb] in HK.
  - assert (Hsame : parsed_host (host cfg) = host cfg).
    { unfold parsed_host, names_local_machine in *.
      apply orb_true_iff in Hlocal.
      destruct Hlocal as [H | H]; apply String.eqb_eq in H; rewrite H;
        reflexivity. }
    rewrite Hsame, Hlocal. exact HK.
  - exact HK.
Qed.

(** X2: No operation other than [connect] and [disconnect] ever writes the
    [connected] flag or the stored config: whatever the calls do and
    however they end, the session they leave is the session they
    found.  By induction on the calls. *)
Theorem operations_keep_session (ops : list Op) :
  forallb guarded ops = true ->
  forall st, self (snd (run_calls env ops st)) = self st.
Proof.
  induction ops as [| op rest IH]; intros Hg st; [reflexivity |].
  cbn in Hg. apply andb_true_iff in Hg. destruct Hg as [G Hrest].
  cbn [run_calls]. pose proof (guarded_keeps_self op G st) as Hop.
  destruct (call env op st) as [out st1]. cbn [snd] in Hop.
  specialize (IH Hrest st1).
  destruct (run_calls env rest st1) as [outs st2]. cbn [snd] in *.
  congruence.
Qed.

(** X3: On a connected remote session every operation is exactly one call to
    the SFTP library, provided the encoding it names (for [readFile] and
    [writeFile]) is one the runtime accepts: the result is a success
    exactly when that call did not throw, a failure carries the message
    of the error it threw, and the world is changed by that call
    alone. *)
Theorem remote_operation_is_one_call (op : Op) (st : State W) :
  remote_session st ->
  guarded op = true ->
  encoding_accepted env op ->
  exists (A : Type) (c : Call A) (err : option Error) r st',
    call env op st = (Returned r, st') /\
    is_client_call c = true /\
    trace st' = trace st ++ [Ev c err] /\
    world st' = snd (handle env c (world st)) /\
    self st' = self st /\
    (is_success r = true <-> err = None) /\
    (forall e, err = Some e -> lookup "error" r = Some (VStr (message e))).
Proof.
  intros [Hc Hloc] G Henc.
  destruct op; try discriminate G; cbn [call];
    unfold list_, put, get, delete, mkdir, rmdir, rename, chmod, exists_,
      stat, readFile, writeFile, putDir, getDir, pwd;
    cbv zeta; rewrite (guarded_frame _ _ _ st Hc), Hloc;
    cbn [encoding_accepted] in Henc;
    try match goal with
        | content : (string + list Byte.byte)%type |- _ =>
            destruct content as [text | bytes];
            [destruct Henc as [bytes Hbytes] |]
        end;
    run_method; unfold library; try rewrite Hbytes;
    match goal with
    | |- context [handle env ?c ?w] =>
        exists _, c; destruct (handle env c w) as [[? | e] w'] eqn:Hh
    end;
    try match goal with
        | |- context [buffer_toString env ?b ?enc] =>
            let text := fresh "text" in
            let Ht := fresh "Ht" in
            destruct (Henc b) as [text Ht]; rewrite Ht
        end;
    match goal with
    | Hh : _ = (Ok _, _) |- _ => exists None
    | Hh : _ = (Raise ?e, _) |- _ => exists (Some e)
    end;
    eexists _, _; cbn [self world trace snd];
    (split; [reflexivity |]); repeat split;
    try discriminate; try congruence;
    intros e0 He0; injection He0 as <-; reflexivity.
Qed.

(** X5: [disconnect] has no connection guard.  When the stored host does not
    name the local machine (a remote session, but also a client that was
    never connected) it calls [client.end()] every time, lowers the flag
    only if that call succeeds, and reports a failure with the flag as it
    was otherwise.  When the stored host names the local machine it calls
    nothing and always succeeds. *)
Theorem disconnect_is_unguarded (st : State W) :
  disconnect env st
  = if localhost_config (config (self st))
    then (Returned [("success", VBool true);
                    ("message", VStr "Disconnected from localhost")],
          mkState {| connected := false; config := config (self st) |}
                  (world st) (trace st))
    else match handle env ClientEnd (world st) with
         | (Ok _, w') =>
             (Returned [("success", VBool true);
                        ("message", VStr "Disconnected successfully")],
              mkState {| connected := false; config := config (self st) |}
                      w' (trace st ++ [Ev ClientEnd None]))
         | (Raise e, w') =>
             (Returned [("success", VBool false);
                        ("message", VStr "Disconnect failed");
                        ("error", VStr (message e))],
              mkState (self st) w' (trace st ++ [Ev ClientEnd (Some e)]))
         end.
Proof.
  unfold disconnect. rewrite try_isLocalhost.
  destruct (localhost_config (config (self st))); run_method;
    [reflexivity |].
  destruct (handle env ClientEnd (world st)) as [[[] | e] w']; reflexivity.
Qed.

(** ** More on [connect] *)

(** [connect] to a server with a non-empty password, run step by step. *)
Lemma connect_with_password_runs (cfg : SFTPConfig) (st : State W) :
  names_local_machine (host cfg) = false ->
  truthy_str (password cfg) = true ->
  connect env cfg st
  = let stored := with_password (base_config cfg) (password cfg) in
    match handle env (ClientConnect (Some stored)) (world st) with
    | (Ok _, w') =>
        (Returned [("success", VBool true);
                   ("message",
                    VStr ("Connected to " ++ parsed_host (host cfg) ++ ":"
                          ++ string_of_Z (parsed_port cfg)))],
         mkState {| connected := true; config := Some stored |} w'
                 (trace st ++ [Ev (ClientConnect (Some stored)) None]))
    | (Raise e, w') =>
        (Returned [("success", VBool false);
                   ("message", VStr "Connection failed");
                   ("error", VStr (message e))],
         mkState {| connected := false; config := Some stored |} w'
                 (trace st ++ [Ev (ClientConnect (Some stored)) (Some e)]))
    end.
Proof.
  intros Hlocal Hp. unfold connect, names_local_machine in *.
  rewrite Hlocal. cbv zeta.
  unfold base_config, parsed_host, parsed_port.
  destruct (includes ":" (host cfg)); cbv beta iota zeta; rewrite Hp;
    run_method;
    match goal with
    | |- context [handle env ?c ?w] =>
        destruct (handle env c w) as [[[] | e] w']
    end; reflexivity.
Qed.

(** [connect] to a server with a key path and no password, run step by
    step. *)
Lemma connect_with_key_path_runs
  (cfg : SFTPConfig) (keyPath : string) (st : State W) :
  names_local_machine (host cfg) = false ->
  truthy_str (password cfg) = false ->
  privateKey cfg = Some (inl keyPath) ->
  keyPath <> "" ->
  connect env cfg st
  = match handle env (FsReadFileSync keyPath) (world st) with
    | (Raise e, w1) =>
        (Returned [("success", VBool false);
                   ("message", VStr "Connection failed");
                   ("error", VStr (message e))],
         mkState {| connected := false; config := Some (base_config cfg) |}
                 w1 (trace st ++ [Ev (FsReadFileSync keyPath) (Some e)]))
    | (Ok bytes, w1) =>
        let keyed := with_privateKey (base_config cfg) (Some (inr bytes)) in
        let stored := if truthy_str (passphrase cfg)
                      then with_passphrase keyed (passphrase cfg)
                      else keyed in
        match handle env (ClientConnect (Some stored)) w1 with
        | (Ok _, w2) =>
            (Returned [("success", VBool true);
                       ("message",
                        VStr ("Connected to " ++ parsed_host (host cfg)
                              ++ ":" ++ string_of_Z (parsed_port cfg)))],
             mkState {| connected := true; config := Some stored |} w2
                     ((trace st ++ [Ev (FsReadFileSync keyPath) None])
                      ++ [Ev (ClientConnect (Some stored)) None]))
        | (Raise e, w2) =>
            (Returned [("success", VBool false);
                       ("message", VStr "Connection failed");
                       ("error", VStr (message e))],
             mkState {| connected := false; config := Some stored |} w2
                     ((trace st ++ [Ev (FsReadFileSync keyPath) None])
                      ++ [Ev (ClientConnect (Some stored)) (Some e)]))
        end
    end.
Proof.
  intros Hlocal Hp Hk Hne. unfold connect, names_local_machine in *.
  rewrite Hlocal. cbv zeta.
  assert (Htk : truthy_key (privateKey cfg) = true).
  { rewrite Hk. cbn. apply negb_true_iff, String.eqb_neq, Hne. }
  unfold base_config, parsed_host, parsed_port.
  destruct (includes ":" (host cfg)); cbv beta iota zeta;
    rewrite Hp, Htk, Hk; run_method;
    (destruct (handle env (FsReadFileSync keyPath) (world st))
       as [[bytes | e] w1]; [| reflexivity]);
    destruct (truthy_str (passphrase cfg)); run_method;
    match goal with
    | |- context [handle env ?c ?w] =>
        destruct (handle env c w) as [[[] | e] w2]
    end; reflexivity.
Qed.

(** X6: With a non-empty password, [connect] to a server makes exactly one
    external call, [client.connect], and the config it stores and sends
    carries the password and nothing of the private key: a key given as
    well is neither read from the disk nor forwarded, and neither is the
    passphrase.  The login succeeds, and raises the flag, exactly when
    that call does not throw. *)
Theorem connect_password_takes_precedence (cfg : SFTPConfig) (st : State W) :
  names_local_machine (host cfg) = false ->
  truthy_str (password cfg) = true ->
  exists stored err r st',
    connect env cfg st = (Returned r, st') /\
    trace st' = trace st ++ [Ev (ClientConnect (Some stored)) err] /\
    world st' = snd (handle env (ClientConnect (Some stored)) (world st)) /\
    config (self st') = Some stored /\
    host stored = parsed_host (host cfg) /\
    username stored = username cfg /\
    password stored = password cfg /\
    privateKey stored = None /\
    passphrase stored = None /\
    (err = None -> is_success r = true /\ connected (self st') = true) /\
    (forall e, err = Some e ->
       is_failure r = true /\
       lookup "error" r = Some (VStr (message e)) /\
       connected (self st') = false).
Proof.
  intros Hlocal Hp.
  rewrite (connect_with_password_runs cfg st Hlocal Hp). cbv zeta.
  exists (with_password (base_config cfg) (password cfg)).
  destruct (handle env _ (world st)) as [[[] | e] w'];
    [exists None | exists (Some e)]; eexists _, _;
    (split; [reflexivity |]); cbn; repeat split; try discriminate;
    congruence.
Qed.

(** X7: With no password and the private key given as a path, [connect] first
    reads the key file from the local disk.  If the read fails the
    server is never contacted, the failure carries the read error and
    the flag is down; otherwise [client.connect] is the second and last
    call, and what it is sent is the bytes read, not the path, together
    with the passphrase only if it is non-empty. *)
Theorem connect_reads_key_file
  (cfg : SFTPConfig) (keyPath : string) (st : State W) :
  names_local_machine (host cfg) = false ->
  truthy_str (password cfg) = false ->
  privateKey cfg = Some (inl keyPath) ->
  keyPath <> "" ->
  exists r st',
    connect env cfg st = (Returned r, st') /\
    match handle env (FsReadFileSync keyPath) (world st) with
    | (Raise e, w1) =>
        r = [("success", VBool false);
             ("message", VStr "Connection failed");
             ("error", VStr (message e))] /\
        trace st' = trace st ++ [Ev (FsReadFileSync keyPath) (Some e)] /\
        world st' = w1 /\
        connected (self st') = false
    | (Ok bytes, w1) =>
        exists stored err,
          trace st'
          = (trace st ++ [Ev (FsReadFileSync keyPath) None])
            ++ [Ev (ClientConnect (Some stored)) err] /\
          world st' = snd (handle env (ClientConnect (Some stored)) w1) /\
          config (self st') = Some stored /\
          privateKey stored = Some (inr bytes) /\
          password stored = None /\
          passphrase stored
          = (if truthy_str (passphrase cfg) then passphrase cfg else None) /\
          (err = None ->
           is_success r = true /\ connected (self st') = true) /\
          (forall e, err = Some e ->
             is_failure r = true /\
             lookup "error" r = Some (VStr (message e)) /\
             connected (self st') = false)
    end.
Proof.
  intros Hlocal Hp Hk Hne.
  rewrite (connect_with_key_path_runs cfg keyPath st Hlocal Hp Hk Hne).
  destruct (handle env (FsReadFileSync keyPath) (world st))
    as [[bytes | e] w1].
  - cbv zeta.
    match goal with
    | |- context [ClientConnect (Some ?c)] => set (stored := c)
    end.
    destruct (handle env (ClientConnect (Some stored)) w1)
      as [[[] | e] w2] eqn:Hh;
      eexists _, _; (split; [reflexivity |]); exists stored;
      [exists None | exists (Some e)]; rewrite Hh;
      cbn [self world trace connected config snd];
      (split; [reflexivity |]); (split; [reflexivity |]);
      (split; [reflexivity |]);
      (split; [subst stored; destruct (truthy_str (passphrase cfg));
               reflexivity |]);
      (split; [subst stored; destruct (truthy_str (passphrase cfg));
               reflexivity |]);
      (split; [subst stored; destruct (truthy_str (passphrase cfg));
               reflexivity |]);
      repeat split; try discriminate; try congruence;
      match goal with
      | H : Some _ = Some _ |- _ => injection H as <-; reflexivity
      end.
  - eexists _, _. split; [reflexivity |]. repeat split.
Qed.

(** What [connect] stores when the host does not name the local machine,
    however the login goes. *)
Lemma connect_remote_outcome (cfg : SFTPConfig) (st : State W) :
  names_local_machine (host cfg) = false ->
  exists r st' stored,
    connect env cfg st = (Returned r, st') /\
    config (self st') = Some stored /\
    host stored = parsed_host (host cfg) /\
    port stored = Some (parsed_port cfg) /\
    (is_success r = true ->
     lookup "message" r
     = Some (VStr ("Connected to " ++ parsed_host (host cfg) ++ ":"
                   ++ string_of_Z (parsed_port cfg)))).
Proof.
  intros Hlocal. unfold connect, names_local_machine in *.
  rewrite Hlocal. cbv zeta. unfold parsed_host, parsed_port.
  destruct (includes ":" (host cfg)); cbv beta iota zeta;
    (destruct (truthy_str (password cfg));
     [| destruct (truthy_key (privateKey cfg));
        [destruct (privateKey cfg) as [[keyPath | bytes] |];
         destruct (truthy_str (passphrase cfg)) |]]);
    run_method; case_io; eexists _, _, _;
    (split; [reflexivity |]); cbn; repeat split; try discriminate.
Qed.

Lemma split_prefix (sep : ascii) (h s : string) :
  includes sep h = false ->
  split sep (h ++ String sep s)%string = h :: split sep s.
Proof.
  induction h as [| c h IH]; intros Hh; cbn [append split].
  - rewrite Ascii.eqb_refl. reflexivity.
  - cbn [includes] in Hh. apply orb_false_iff in Hh. destruct Hh as [Hc Hh].
    rewrite Hc, (IH Hh). reflexivity.
Qed.

Lemma split_whole (sep : ascii) (s : string) :
  includes sep s = false -> split sep s = [s].
Proof.
  induction s as [| c s IH]; intros Hs; cbn [split]; [reflexivity |].
  cbn [includes] in Hs. apply orb_false_iff in Hs. destruct Hs as [Hc Hs].
  rewrite Hc, (IH Hs). reflexivity.
Qed.

Lemma includes_app (sep : ascii) (a b : string) :
  includes sep (a ++ b)%string = includes sep a || includes sep b.
Proof.
  induction a as [| c a IH]; cbn [append includes]; [reflexivity |].
  rewrite IH, orb_assoc. reflexivity.
Qed.

(** Reading back a number written in decimal. *)
Lemma digits_step (R : Z) (c : ascii) (s : string) (acc : option Z) (d : Z) :
  digit_value c = Some d -> (d <? R) = true ->
  digits R (String c s) acc
  = digits R s (Some (match acc with Some a => a * R + d | None => d end)).
Proof. intros Hd Hlt. cbn [digits]. rewrite Hd, Hlt. reflexivity. Qed.

Ltac digit_step k :=
  match goal with
  | |- digits 10 (String ?c _) _ = _ =>
      rewrite (digits_step 10 c _ _ k eq_refl eq_refl)
  end.

Ltac each_digit :=
  [> digit_step 0 | digit_step 1 | digit_step 2 | digit_step 3
   | digit_step 4 | digit_step 5 | digit_step 6 | digit_step 7
   | digit_step 8 | digit_step 9 ].

Lemma digits_uint_acc (d : Decimal.uint) :
  forall acc : positive,
    digits 10 (NilEmpty.string_of_uint d) (Some (Z.pos acc))
    = Some (Z.pos (Pos.of_uint_acc d acc)).
Proof.
  induction d; intros acc; cbn [NilEmpty.string_of_uint Pos.of_uint_acc];
    try reflexivity; each_digit; rewrite <- IHd; f_equal; f_equal; lia.
Qed.

Lemma digits_uint_zero (d : Decimal.uint) :
  digits 10 (NilEmpty.string_of_uint d) (Some 0)
  = Some (Z.of_N (Pos.of_uint d)).
Proof.
  induction d; cbn [NilEmpty.string_of_uint Pos.of_uint]; try reflexivity;
    each_digit; try exact IHd; cbn [Z.mul Z.add Z.of_N];
    apply digits_uint_acc.
Qed.

Lemma digits_uint (d : Decimal.uint) :
  d <> Decimal.Nil ->
  digits 10 (NilEmpty.string_of_uint d) None = Some (Z.of_N (Pos.of_uint d)).
Proof.
  intros Hd. destruct d; try contradiction;
    cbn [NilEmpty.string_of_uint Pos.of_uint]; each_digit;
    try apply digits_uint_zero; apply digits_uint_acc.
Qed.

Lemma parseInt_uint (d : Decimal.uint) :
  parseInt (NilZero.string_of_uint d) None = Some (Z.of_N (Pos.of_uint d)) /\
  parseInt (String "-" (NilZero.string_of_uint d)) None
  = Some (- Z.of_N (Pos.of_uint d)).
Proof.
  destruct d as [| d | d | d | d | d | d | d | d | d | d];
    try (split; reflexivity); unfold NilZero.string_of_uint.
  all: match goal with
       | |- parseInt (NilEmpty.string_of_uint ?u) None = _ /\ _ =>
           assert (Hu : u <> Decimal.Nil) by discriminate;
           pose proof (digits_uint u Hu) as Hd
       end.
  all: destruct d;
    lazy beta iota zeta delta -[digits Pos.of_uint Z.of_N Z.opp] in Hd |- *;
    rewrite Hd; split; reflexivity.
Qed.

(** [parseInt] reads back what a template literal printed. *)
Lemma parseInt_string_of_Z (n : Z) : parseInt (string_of_Z n) None = Some n.
Proof.
  unfold string_of_Z. rewrite <- (DecimalZ.of_to n) at 2.
  destruct (Z.to_int n) as [d | d];
    cbn [NilZero.string_of_int Z.of_int Z.of_uint]; apply parseInt_uint.
Qed.

Lemma includes_uint (c : ascii) (d : Decimal.uint) :
  digit_value c = None ->
  includes c (NilEmpty.string_of_uint d) = false.
Proof.
  intros Hc. induction d; cbn [NilEmpty.string_of_uint includes];
    try reflexivity; rewrite IHd, orb_false_r;
    apply Ascii.eqb_neq; intros <-; cbv in Hc; discriminate.
Qed.

Lemma includes_string_of_Z (n : Z) : includes ":" (string_of_Z n) = false.
Proof.
  assert (Hu : forall d, includes ":" (NilZero.string_of_uint d) = false).
  { intros d. unfold NilZero.string_of_uint.
    destruct d; try reflexivity; apply includes_uint; reflexivity. }
  unfold string_of_Z.
  destruct (Z.to_int n) as [d | d]; cbn [NilZero.string_of_int includes];
    rewrite Hu; reflexivity.
Qed.

Lemma names_local_machine_no_colon (h : string) :
  names_local_machine h = true -> includes ":" h = false.
Proof.
  unfold names_local_machine. intros H. apply orb_true_iff in H.
  destruct H as [H | H]; apply String.eqb_eq in H; subst h; reflexivity.
Qed.

(** X8: A port written after the host wins.  For a host given as [h:n], [h]
    without a colon and [n] a non-zero safe integer in decimal (below
    [2^53] in absolute value), [connect] takes
    the server path (never the localhost shortcut), whatever [h] is;
    it stores host [h] and port [n] whatever [config.port] says and
    however the login ends; and a success is announced as
    ['Connected to h:n']. *)
Theorem connect_port_in_host_wins
  (cfg : SFTPConfig) (h : string) (n : Z) (st : State W) :
  host cfg = (h ++ ":" ++ string_of_Z n)%string ->
  includes ":" h = false ->
  n <> 0 ->
  - 2 ^ 53 < n < 2 ^ 53 ->
  exists r st' stored,
    connect env cfg st = (Returned r, st') /\
    config (self st') = Some stored /\
    host stored = h /\
    port stored = Some n /\
    (is_success r = true ->
     lookup "message" r
     = Some (VStr ("Connected to " ++ h ++ ":" ++ string_of_Z n))).
Proof.
  intros Hhost Hh Hn Hsafe.
  assert (Hcolon : includes ":" (host cfg) = true).
  { rewrite Hhost, includes_app. cbn. apply orb_true_r. }
  assert (Hlocal : names_local_machine (host cfg) = false).
  { destruct (names_local_machine (host cfg)) eqn:E; [| reflexivity].
    apply names_local_machine_no_colon in E. congruence. }
  assert (Hsplit : split ":" (host cfg) = [h; string_of_Z n]).
  { rewrite Hhost. cbn [append]. rewrite (split_prefix ":" h _ Hh).
    rewrite (split_whole ":" _ (includes_string_of_Z n)). reflexivity. }
  assert (Hph : parsed_host (host cfg) = h).
  { unfold parsed_host. rewrite Hcolon, Hsplit. reflexivity. }
  assert (Hpp : parsed_port cfg = n).
  { unfold parsed_port. rewrite Hcolon, Hsplit. cbn [nth_error].
    rewrite parseInt_string_of_Z. unfold or_num at 1.
    destruct (Z.eqb_spec n 0); [contradiction | reflexivity]. }
  destruct (connect_remote_outcome cfg st Hlocal)
    as (r & st' & stored & Hc & Hs & Hsh & Hsp & Hmsg).
  exists r, st', stored. rewrite Hph in *. rewrite Hpp in *.
  repeat split; assumption.
Qed.

(** ** More on the localhost methods *)

(** When [items.map(f)] returns, it returns one value per item, in
    order, each the value [f] returned for that item. *)
Lemma mapM_returned {A B} (R : A -> B -> Prop) (f : A -> M W B) :
  (forall x st y st', f x st = (Returned y, st') -> R x y) ->
  forall items st ys st',
    mapM f items st = (Returned ys, st') -> Forall2 R items ys.
Proof.
  intros Hf. induction items as [| x rest IH]; intros st ys st' Hm.
  - cbn in Hm. injection Hm as <- _. constructor.
  - cbn [mapM] in Hm. unfold bind in Hm.
    destruct (f x st) as [[y | e] st1] eqn:Hx; [| discriminate].
    destruct (mapM f rest st1) as [[ys1 | e] st2] eqn:Hrest; [| discriminate].
    cbn in Hm. injection Hm as <- _.
    constructor; [eapply Hf, Hx | eapply IH, Hrest].
Qed.

(** X9: A successful [list] on a localhost session returns one entry per
    directory entry [fs.readdirSync] yielded, in the same order, each with
    the entry's name, the type ['d'] for a directory and ['-'] for
    anything else (a symbolic link is never ['l']), and the fixed rights
    [rwx], [r-x], [r-x]. *)
Theorem local_list_shape
  (remotePath : option string) (items : list Dirent)
  (st st' : State W) (w1 : W) (r : OperationResult) :
  localhost_session st ->
  handle env
    (FsReaddirSync match remotePath with Some p => p | None => "/" end)
    (world st) = (Ok items, w1) ->
  call env (OpList remotePath) st = (Returned r, st') ->
  is_success r = true ->
  exists files,
    lookup "data" r = Some (VArr files) /\
    Forall2
      (fun item file =>
         exists info,
           file = VObj info /\
           get_prop info "name" = VStr (dirent_name item) /\
           get_prop info "type"
           = VStr (if dirent_isDirectory item then "d" else "-") /\
           get_prop info "rights"
           = VObj [("user", VStr "rwx"); ("group", VStr "r-x");
                   ("other", VStr "r-x")])
      items files.
Proof.
  intros [Hc Hloc] Hh Hcall Hs. cbn [call] in Hcall. unfold list_ in Hcall.
  cbv zeta in Hcall. rewrite (guarded_frame _ _ _ st Hc), Hloc in Hcall.
  unfold listLocal in Hcall. unfold try_catch, bind at 1, io in Hcall.
  rewrite Hh in Hcall. unfold bind in Hcall.
  match type of Hcall with
  | context [mapM ?f items ?s] =>
      destruct (mapM f items s) as [[files | e] st2] eqn:Hm
  end; cbn in Hcall; injection Hcall as <- <-; [| discriminate Hs].
  exists files. split; [reflexivity |].
  eapply mapM_returned; [| exact Hm].
  intros item s y s' Hy. cbv beta in Hy. unfold bind, io, ret in Hy.
  destruct (handle env _ (world s)) as [[stats | e] w2];
    [| discriminate].
  injection Hy as <- _. eexists. repeat split.
Qed.

(** The recursive copy is made of the four calls [existsSync],
    [mkdirSync], [readdirSync] and [copyFileSync] alone, however deep it
    goes. *)
Lemma tr_copyDirRecursive_copies (frames : nat) :
  forall src dest st,
    tr_spec is_copy_event (fun _ => True)
      (copyDirRecursive env frames src dest) st.
Proof.
  induction frames as [| frames' IH]; intros src dest st;
    cbn [copyDirRecursive].
  - apply tr_throw.
  - eapply tr_bind; [apply tr_io with (Q := fun _ => True); auto |].
    intros there st1 _.
    eapply tr_bind with (P := fun _ => True).
    { destruct there; cbn [negb];
        [apply tr_ret; exact I | apply tr_io; auto]. }
    intros _ st2 _.
    eapply tr_bind; [apply tr_io with (Q := fun _ => True); auto |].
    intros items st3 _.
    apply tr_for_of. intros item st4.
    destruct (dirent_isDirectory item); [apply IH | apply tr_io; auto].
Qed.

(** X10: On a localhost session [putDir] and [getDir] never remove, rename or
    rewrite anything by other means than a file copy: every call they
    make is one of [existsSync], [mkdirSync], [readdirSync] and
    [copyFileSync], and they always return a result. *)
Theorem local_directory_copy_only_copies
  (op : Op) (a b : string) (st : State W) :
  localhost_session st ->
  op = OpPutDir a b \/ op = OpGetDir a b ->
  exists r st' evs,
    call env op st = (Returned r, st') /\
    trace st' = trace st ++ evs /\
    forallb is_copy_event evs = true.
Proof.
  intros [Hc Hloc] Hop.
  assert (H : op_spec is_copy_event (call env op) st).
  { destruct Hop as [-> | ->]; cbn [call];
      unfold putDir, getDir, getDirLocal, op_spec;
      rewrite !(guarded_frame _ _ _ st Hc), Hloc;
      apply op_try_outer; unfold putDirLocal;
      (apply op_try; [| apply literal_handler]);
      (eapply tr_bind; [apply tr_copyDirRecursive_copies |]);
      intros; apply tr_ret; reflexivity. }
  destruct H as (r & evs & Hr & Ht & HK & _).
  destruct (call env op st) as [out st']. cbn [fst snd] in *. subst out.
  exists r, st', evs. repeat split; assumption.
Qed.

(** X11: A successful [exists] on a localhost session is coherent: either
    [{exists: false, type: null}] after the one call [existsSync], or
    [{exists: true, type}] with [type] ['d'] or ['-'] after [existsSync]
    and [statSync]; it never says that a path exists without a type. *)
Theorem local_exists_is_coherent
  (p : string) (st st' : State W) (r : OperationResult) :
  localhost_session st ->
  call env (OpExists p) st = (Returned r, st') ->
  is_success r = true ->
  (lookup "data" r
   = Some (VObj [("exists", VBool false); ("type", VNull)]) /\
   trace st' = trace st ++ [Ev (FsExistsSync p) None])
  \/
  (exists t,
     (t = "d" \/ t = "-")%string /\
     lookup "data" r
     = Some (VObj [("exists", VBool true); ("type", VStr t)]) /\
     trace st'
     = (trace st ++ [Ev (FsExistsSync p) None])
       ++ [Ev (FsStatSync p) None]).
Proof.
  intros [Hc Hloc] Hcall Hs. cbn [call] in Hcall. unfold exists_ in Hcall.
  rewrite (guarded_frame _ _ _ st Hc), Hloc in Hcall.
  unfold existsLocal in Hcall. run_method_in Hcall.
  destruct (handle env (FsExistsSync p) (world st)) as [[[] | e] w1];
    cbn [self world trace fst snd] in Hcall.
  - destruct (handle env (FsStatSync p) w1) as [[stats | e] w2];
      injection Hcall as <- <-; [| discriminate Hs].
    right. exists (if stats_isDirectory stats then "d" else "-")%string.
    repeat split. destruct (stats_isDirectory stats); auto.
  - injection Hcall as <- <-. left. split; reflexivity.
  - injection Hcall as <- <-. discriminate Hs.
Qed.

(** The digits of a numeral read back in base [R]. *)
Lemma digit_value_digit_char (d : Z) :
  0 <= d <= 9 -> digit_value (digit_char d) = Some d.
Proof.
  intros Hd. destruct d as [| p | p]; [reflexivity | | lia].
  do 4 (try destruct p as [p | p |]; try reflexivity; try lia).
Qed.

Lemma digits_numeral (R : Z) (ds : list Z) :
  R <= 10 ->
  Forall (fun d => 0 <= d < R) ds ->
  forall acc,
    digits R (numeral ds) (Some acc)
    = Some (fold_left (fun a d => a * R + d) ds acc).
Proof.
  intros HR Hds. induction Hds as [| d ds Hd Hds IH]; intros acc;
    cbn [numeral fold_left]; [reflexivity |].
  rewrite (digits_step R (digit_char d) _ _ d).
  - apply IH.
  - apply digit_value_digit_char. lia.
  - apply Z.ltb_lt. lia.
Qed.

Lemma parseInt_octal (ds : list Z) :
  ds <> [] ->
  Forall (fun d => 0 <= d < 8) ds ->
  parseInt (numeral ds) (Some 8) = Some (numeral_value 8 ds).
Proof.
  intros Hne Hds. destruct ds as [| d ds]; [contradiction |].
  inversion Hds as [| d' ds' Hd Hrest]; subst.
  pose proof (digits_numeral 8 ds ltac:(lia) Hrest) as Hdigits.
  unfold numeral_value. cbn [numeral fold_left].
  assert (Hparse : forall c s v,
            is_space c = false -> Ascii.eqb c "-" = false ->
            Ascii.eqb c "+" = false ->
            digits 8 (String c s) None = Some v ->
            parseInt (String c s) (Some 8) = Some v).
  { intros c s v Hsp Hm Hp Hv. unfold parseInt. cbn [trim_left].
    rewrite Hsp.
    destruct c as [[] [] [] [] [] [] [] []]; try discriminate;
      cbv beta iota zeta delta -[digits]; try (rewrite Hv; reflexivity);
      destruct s; rewrite Hv; reflexivity. }
  assert (Hc : is_space (digit_char d) = false
               /\ Ascii.eqb (digit_char d) "-" = false
               /\ Ascii.eqb (digit_char d) "+" = false).
  { destruct d as [| p | p]; [repeat split | | lia].
    do 3 (try destruct p as [p | p |]; try (repeat split; reflexivity);
          try lia). }
  destruct Hc as (Hsp & Hm & Hp).
  apply Hparse; try assumption.
  rewrite (digits_step 8 (digit_char d) _ _ d).
  - rewrite Hdigits. reflexivity.
  - apply digit_value_digit_char. lia.
  - apply Z.ltb_lt. lia.
Qed.

(** X12: On a localhost session a [mode] given as a string of octal digits
    that denotes a safe integer (below [2^53]) is read in base 8:
    [chmod(p, '755')] hands [fs.chmodSync] the number [0o755], and the
    result is a success exactly when that one call did not throw. *)
Theorem local_chmod_reads_octal
  (p : string) (ds : list Z) (st : State W) :
  localhost_session st ->
  ds <> [] ->
  Forall (fun d => 0 <= d < 8) ds ->
  numeral_value 8 ds < 2 ^ 53 ->
  exists err r st',
    call env (OpChmod p (ModeStr (numeral ds))) st = (Returned r, st') /\
    trace st'
    = trace st ++ [Ev (FsChmodSync p (Some (numeral_value 8 ds))) err] /\
    (is_success r = true <-> err = None).
Proof.
  intros [Hc Hloc] Hne Hds Hsafe. cbn [call]. unfold chmod.
  rewrite (guarded_frame _ _ _ st Hc), Hloc.
  unfold chmodLocal. cbv zeta. rewrite (parseInt_octal ds Hne Hds).
  run_method.
  destruct (handle env (FsChmodSync p (Some (numeral_value 8 ds))) (world st))
    as [[[] | e] w'];
    [exists None | exists (Some e)]; eexists _, _;
    (split; [reflexivity |]); split; try reflexivity;
    split; try discriminate; reflexivity.
Qed.

(** X4: On a localhost session each of [put], [get], [delete], [mkdir],
    [rmdir], [rename], [chmod], [stat], [readFile], [writeFile] and [pwd]
    is exactly one call to the operating system and none to the SFTP
    library: the result is a success exactly when that call did not
    throw, a failure carries the message of the error it threw, and the
    session is left as it was. *)
Theorem local_operation_is_one_call (op : Op) (st : State W) :
  localhost_session st ->
  single_call_op op = true ->
  exists (A : Type) (c : Call A) (err : option Error) r st',
    call env op st = (Returned r, st') /\
    is_client_call c = false /\
    trace st' = trace st ++ [Ev c err] /\
    world st' = snd (handle env c (world st)) /\
    self st' = self st /\
    (is_success r = true <-> err = None) /\
    (forall e, err = Some e -> lookup "error" r = Some (VStr (message e))).
Proof.
  intros [Hc Hloc] G.
  destruct op; try discriminate G; cbn [call];
    unfold put, get, delete, mkdir, rmdir, rename, chmod,
      stat, readFile, writeFile, pwd;
    cbv zeta; rewrite (guarded_frame _ _ _ st Hc), Hloc;
    unfold getLocal, putLocal, deleteLocal, mkdirLocal, rmdirLocal,
      renameLocal, chmodLocal, statLocal, readFileLocal, writeFileLocal;
    cbv zeta; run_method;
    match goal with
    | |- context [handle env ?c ?w] =>
        exists _, c; destruct (handle env c w) as [[? | e] w'] eqn:Hh
    end;
    match goal with
    | Hh : _ = (Ok _, _) |- _ => exists None
    | Hh : _ = (Raise ?e, _) |- _ => exists (Some e)
    end;
    eexists _, _; cbn [self world trace snd];
    (split; [reflexivity |]); repeat split;
    try discriminate; try congruence;
    intros e0 He0; injection He0 as <-; reflexivity.
Qed.

(** ** The command line *)

Lemma split_head_no_sep (sep : ascii) (s : string) :
  includes sep (nth 0 (split sep s) "") = false.
Proof.
  induction s as [| c s IH]; cbn [split]; [reflexivity |].
  destruct (Ascii.eqb c sep) eqn:E; [reflexivity |].
  destruct (split sep s) as [| p ps]; cbn [nth includes] in *;
    rewrite E; [reflexivity | exact IH].
Qed.

Lemma parsed_host_no_colon (h : string) :
  includes ":" (parsed_host h) = false.
Proof.
  unfold parsed_host. destruct (includes ":" h) eqn:E;
    [apply split_head_no_sep | exact E].
Qed.

Lemma or_num_nonzero (n : option Z) (d : Z) : d <> 0 -> or_num n d <> 0.
Proof.
  intros Hd. unfold or_num. destruct n as [n' |]; [| exact Hd].
  destruct (Z.eqb_spec n' 0); assumption.
Qed.

(** X13: The config [promptConnection] returns never has a [:port] left in its
    host, and its port is never [0]; so [connect] takes both as they
    are: for a host that does not name the local machine, the config it
    stores has exactly that host and that port. *)
Theorem prompted_host_and_port_reach_the_server
  (answers : Answers) (st : State W) :
  includes ":" (host (promptConnection answers)) = false /\
  host (promptConnection answers) = parsed_host (answers_host answers) /\
  (exists p, port (promptConnection answers) = Some p /\ p <> 0) /\
  (names_local_machine (host (promptConnection answers)) = false ->
   exists r st' stored,
     connect env (promptConnection answers) st = (Returned r, st') /\
     config (self st') = Some stored /\
     host stored = host (promptConnection answers) /\
     port stored = port (promptConnection answers)).
Proof.
  assert (Hhost : host (promptConnection answers)
                  = parsed_host (answers_host answers)).
  { unfold promptConnection, parsed_host.
    destruct (includes ":" (answers_host answers)); reflexivity. }
  assert (Hcolon : includes ":" (host (promptConnection answers)) = false).
  { rewrite Hhost. apply parsed_host_no_colon. }
  assert (Hport : exists p, port (promptConnection answers) = Some p /\ p <> 0).
  { unfold promptConnection.
    destruct (includes ":" (answers_host answers)); cbn [port];
      eexists; (split; [reflexivity |]);
      [apply or_num_nonzero |]; discriminate. }
  repeat split; try assumption.
  intros Hlocal.
  destruct (connect_remote_outcome (promptConnection answers) st Hlocal)
    as (r & st' & stored & Hc & Hs & Hsh & Hsp & _).
  exists r, st', stored. repeat split; try assumption.
  - rewrite Hsh. unfold parsed_host. rewrite Hcolon. reflexivity.
  - rewrite Hsp. unfold parsed_port. rewrite Hcolon.
    destruct Hport as (p & Hp & Hp0). rewrite Hp. unfold or_num.
    destruct (Z.eqb_spec p 0); [contradiction | reflexivity].
Qed.

(** X14: At the interactive prompt a host such as ['localhost:2222'] selects
    the localhost passthrough: [promptConnection] cuts the port off before
    [connect] sees the host, so [connect] succeeds at once, without any
    external call and whatever the credentials are. *)
Theorem prompted_localhost_with_port_is_passthrough
  (answers : Answers) (st : State W) :
  names_local_machine (parsed_host (answers_host answers)) = true ->
  connect env (promptConnection answers) st
  = (Returned [("success", VBool true);
               ("message", VStr "Connected to localhost")],
     mkState {| connected := true;
                config := Some (promptConnection answers) |}
             (world st) (trace st)).
Proof.
  intros H. apply connect_localhost. cbn [localhost_config].
  assert (Hhost : host (promptConnection answers)
                  = parsed_host (answers_host answers)).
  { unfold promptConnection, parsed_host.
    destruct (includes ":" (answers_host answers)); reflexivity. }
  rewrite Hhost. exact H.
Qed.

(** ** The web widget's paths *)

Lemma segment_inv (x : string) :
  segment x = true -> x <> "" /\ includes "/" x = false.
Proof.
  unfold segment. intros H. apply andb_true_iff in H. destruct H as [H1 H2].
  apply negb_true_iff in H1, H2. split; [apply String.eqb_neq, H1 | exact H2].
Qed.

Lemma split_parts_no_sep (sep : ascii) (s : string) :
  Forall (fun p => includes sep p = false) (split sep s).
Proof.
  induction s as [| c s IH]; cbn [split].
  - repeat constructor.
  - destruct (Ascii.eqb c sep) eqn:E.
    + constructor; [reflexivity | exact IH].
    + destruct (split sep s) as [| p ps].
      * repeat constructor. cbn. rewrite E. reflexivity.
      * inversion IH as [| p' ps' Hp Hps]; subst.
        constructor; [cbn; rewrite E; exact Hp | exact Hps].
Qed.

(** [parts.join('/')] split again gives the parts back. *)
Lemma split_concat (segs : list string) :
  forallb segment segs = true -> segs <> [] ->
  split "/" (String.concat "/" segs) = segs.
Proof.
  induction segs as [| x rest IH]; intros Hsegs Hne; [contradiction |].
  cbn in Hsegs. apply andb_true_iff in Hsegs. destruct Hsegs as [Hx Hrest].
  apply segment_inv in Hx. destruct Hx as [_ Hx].
  destruct rest as [| y rest'].
  - cbn. apply split_whole, Hx.
  - change (String.concat "/" (x :: y :: rest'))
      with (x ++ String "/" (String.concat "/" (y :: rest')))%string.
    rewrite (split_prefix "/" x _ Hx), IH; [reflexivity | exact Hrest |].
    discriminate.
Qed.

Lemma filter_segments (segs : list string) :
  forallb segment segs = true ->
  filter (fun p => negb (p =? "")%string) segs = segs.
Proof.
  induction segs as [| x rest IH]; intros H; [reflexivity |].
  cbn in H. apply andb_true_iff in H. destruct H as [Hx Hrest].
  cbn [filter]. unfold segment in Hx. apply andb_true_iff in Hx.
  destruct Hx as [Hx _]. rewrite Hx, (IH Hrest). reflexivity.
Qed.

(** The parts [goBack] and the directory tree work with: for a path of
    segments, the segments. *)
Lemma parts_of_path (segs : list string) :
  forallb segment segs = true ->
  filter (fun p => negb (p =? "")%string) (split "/" (path_of segs)) = segs.
Proof.
  intros Hsegs. unfold path_of. destruct segs as [| x rest]; [reflexivity |].
  change ("/" ++ String.concat "/" (x :: rest))%string
    with ("" ++ String "/" (String.concat "/" (x :: rest)))%string.
  rewrite (split_prefix "/" "" _ eq_refl), split_concat;
    [| exact Hsegs | discriminate].
  change (filter (fun p => negb (p =? "")%string) ("" :: x :: rest))
    with (filter (fun p => negb (p =? "")%string) (x :: rest)).
  apply filter_segments, Hsegs.
Qed.

Lemma append_assoc (a b c : string) :
  ((a ++ b) ++ c)%string = (a ++ (b ++ c))%string.
Proof.
  induction a as [| x a IH]; cbn [append]; [reflexivity |].
  rewrite IH. reflexivity.
Qed.

Lemma concat_snoc (segs : list string) (name : string) :
  segs <> [] ->
  String.concat "/" (segs ++ [name])
  = (String.concat "/" segs ++ "/" ++ name)%string.
Proof.
  induction segs as [| x rest IH]; intros Hne; [contradiction |].
  destruct rest as [| y rest'].
  - reflexivity.
  - change ((x :: y :: rest') ++ [name]) with (x :: (y :: rest') ++ [name]).
    change (String.concat "/" (x :: (y :: rest') ++ [name]))
      with (x ++ "/" ++ String.concat "/" ((y :: rest') ++ [name]))%string.
    rewrite IH by discriminate.
    change (String.concat "/" (x :: y :: rest'))
      with (x ++ "/" ++ String.concat "/" (y :: rest'))%string.
    rewrite !append_assoc. reflexivity.
Qed.

Lemma path_of_root (segs : list string) :
  forallb segment segs = true ->
  (path_of segs =? "/")%string = match segs with [] => true | _ => false end.
Proof.
  intros Hsegs. destruct segs as [| x rest]; [reflexivity |].
  cbn in Hsegs. apply andb_true_iff in Hsegs. destruct Hsegs as [Hx _].
  apply segment_inv in Hx. destruct Hx as [Hx _].
  apply String.eqb_neq. unfold path_of. intros H.
  destruct x as [| c x]; [contradiction |].
  destruct rest; cbn in H; discriminate H.
Qed.

(** The path [openFolder] loads from a path of segments is the path of
    those segments and the folder's name. *)
Lemma openFolder_path_of
  (files : list FileItem) (segs : list string) (index : nat)
  (file : FileItem) :
  forallb segment segs = true ->
  nth_error files index = Some file ->
  item_type file = "d" ->
  openFolder_newPath files (path_of segs) index
  = Some (path_of (segs ++ [item_name file])).
Proof.
  intros Hsegs Hfile Htype. unfold openFolder_newPath.
  rewrite Hfile, Htype, (path_of_root segs Hsegs). cbn [String.eqb negb].
  destruct segs as [| x rest]; [reflexivity |].
  unfold path_of. rewrite concat_snoc by discriminate.
  rewrite !append_assoc. reflexivity.
Qed.

(** X15: Opening a folder and going back is a round trip.  From a path made
    of segments, [openFolder] on a directory entry whose name is a
    segment loads a path from which [goBack] loads the first path
    again. *)
Theorem goBack_undoes_openFolder
  (files : list FileItem) (segs : list string) (index : nat)
  (file : FileItem) :
  forallb segment segs = true ->
  nth_error files index = Some file ->
  item_type file = "d" ->
  segment (item_name file) = true ->
  exists child,
    openFolder_newPath files (path_of segs) index = Some child /\
    goBack_newPath child = Some (path_of segs).
Proof.
  intros Hsegs Hfile Htype Hname.
  exists (path_of (segs ++ [item_name file])).
  split; [apply openFolder_path_of; assumption |].
  assert (Hall : forallb segment (segs ++ [item_name file]) = true).
  { rewrite forallb_app, Hsegs. cbn. rewrite Hname. reflexivity. }
  assert (Hroot : (path_of (segs ++ [item_name file]) =? "/")%string = false).
  { rewrite (path_of_root _ Hall). destruct segs; reflexivity. }
  unfold goBack_newPath. rewrite Hroot. cbv zeta.
  rewrite (parts_of_path _ Hall), removelast_last.
  destruct segs; reflexivity.
Qed.

Lemma Forall_removelast {A} (P : A -> Prop) (l : list A) :
  Forall P l -> Forall P (removelast l).
Proof.
  induction 1 as [| x l Hx Hl IH]; [constructor |].
  cbn [removelast]. destruct l; [constructor |].
  constructor; assumption.
Qed.

(** X16: Whatever the current path looks like (doubled or trailing slashes
    included), the path [goBack] loads is a path of segments: ["/"]
    followed by non-empty, slash-free names joined with ["/"]. *)
Theorem goBack_loads_a_clean_path (currentPath newPath : string) :
  goBack_newPath currentPath = Some newPath ->
  exists segs, forallb segment segs = true /\ newPath = path_of segs.
Proof.
  unfold goBack_newPath. destruct (currentPath =? "/")%string; [discriminate |].
  cbv zeta. intros H. injection H as <-.
  set (parts := removelast _).
  exists parts. split.
  - apply forallb_forall. intros x Hx.
    assert (Hall : Forall (fun p => segment p = true) parts).
    { apply Forall_removelast. apply Forall_forall. intros y Hy.
      apply filter_In in Hy. destruct Hy as [Hy Hne].
      pose proof (split_parts_no_sep "/" currentPath) as Hsplit.
      rewrite Forall_forall in Hsplit. unfold segment.
      rewrite Hne, (Hsplit y Hy). reflexivity. }
    rewrite Forall_forall in Hall. apply Hall, Hx.
  - destruct parts; reflexivity.
Qed.

End Properties.

(** * The properties on the sample worlds *)

(** ** C1: the shape of a result *)

(** C1 fails as stated: with the server out of reach, [connect] to
    [example.com] returns a failure result that has no [errorKind]
    property (and no [data]); the failure is described by [error].  And a
    guarded operation on a client that is not connected returns no result
    at all: it throws. *)
Lemma C1_counterexample :
  (exists r st',
     call offline_env (OpConnect (cfg_of "example.com" (Some "pw")))
          (initial 0%nat) = (Returned r, st') /\
     is_failure r = true /\
     has_key "errorKind" r = false /\
     has_key "data" r = false /\
     lookup "error" r = Some (VStr "ECONNREFUSED") /\
     spec_uniform_shape r = false) /\
  call offline_env (OpList None) (initial 0%nat)
  = (Thrown NotConnected, initial 0%nat).
Proof.
  split; [| reflexivity].
  eexists _, _. split; [reflexivity |]. repeat split.
Qed.

(** C1 as amended, on the failed [connect] above. *)
Lemma C1_witness :
  exists r st',
    call offline_env (OpConnect (cfg_of "example.com" (Some "pw")))
         (initial 0%nat) = (Returned r, st') /\
    (exists ok text,
       lookup "success" r = Some (VBool ok) /\
       lookup "message" r = Some (VStr text)) /\
    (forall k, mem k ["success"; "message"; "data"; "error"] = false ->
               lookup k r = None) /\
    lookup "errorKind" r = None /\
    (is_success r = true -> lookup "error" r = None) /\
    (is_failure r = true ->
     lookup "data" r = None /\
     exists text, lookup "error" r = Some (VStr text)).
Proof.
  apply (C1_result_shape offline_env
           (OpConnect (cfg_of "example.com" (Some "pw"))) (initial 0%nat)).
  intros G. discriminate G.
Defined.

(** ** C2: the guard *)



(** ** C3: failures are returned *)

(** C3 on the rename the sample server refuses. *)
Lemma C3_witness :
  exists r st',
    call sample_env (OpRename "/a" "/b") remote_state = (Returned r, st') /\
    (is_success r = true \/ is_failure r = true) /\
    forall ev e,
      In ev (new_events remote_state st') -> ev_error ev = Some e ->
      is_failure r = true /\ lookup "error" r = Some (VStr (message e)).
Proof.
  apply (proj1 (C3_failures_are_returned sample_env (OpRename "/a" "/b")
                  remote_state)).
  reflexivity.
Defined.

(** ** C4: a rename the server refuses *)

(** C4 fails as stated: the server's [NoSuchFile] comes back in [error],
    under the fixed [message] ['Rename failed'] and with no [errorKind],
    so the result is not the one the scenario names. *)
Lemma C4_counterexample :
  fst (handle sample_env (ClientRename "/a" "/b") (world remote_state))
  = Raise (mkError "NoSuchFile") /\
  exists r st',
    call sample_env (OpRename "/a" "/b") remote_state = (Returned r, st') /\
    lookup "message" r = Some (VStr "Rename failed") /\
    lookup "message" spec_rename_failure = Some (VStr "NoSuchFile") /\
    lookup "errorKind" r = None /\
    lookup "errorKind" spec_rename_failure
    = Some (VStr "RemoteOperationError") /\
    r <> spec_rename_failure.
Proof.
  split; [reflexivity |]. eexists _, _. split; [reflexivity |].
  repeat split. discriminate.
Qed.

(** C4 as amended, on the sample server. *)
Lemma C4_witness :
  call sample_env (OpRename "/a" "/b") remote_state
  = (Returned [("success", VBool false);
               ("message", VStr "Rename failed");
               ("error", VStr "NoSuchFile")],
     mkState (self remote_state) 2%nat
             (trace remote_state
              ++ [Ev (ClientRename "/a" "/b")
                     (Some (mkError "NoSuchFile"))])%list).
Proof.
  apply (C4_rename_failure_result sample_env "/a" "/b" "NoSuchFile"
           remote_state 2%nat).
  - split; reflexivity.
  - reflexivity.
Defined.

(** ** C5: the specification's listing *)

(** C5 on the listing of [/home/user]. *)
Lemma C5_witness :
  exists data st',
    call sample_env (OpList (Some "/home/user")) remote_state
    = (Returned [("success", VBool true);
                 ("message", VStr "Files listed successfully");
                 ("data", VArr data)], st') /\
    length data = length home_user /\
    forall i item,
      nth_error home_user i = Some item ->
      exists info,
        nth_error data i = Some (VObj info) /\
        forall k,
          In k ["type"; "name"; "size"; "modifyTime"; "accessTime"] ->
          get_prop info k = get_prop item k.
Proof.
  apply (C5_list_preserves_order_and_fields sample_env (Some "/home/user")
           home_user remote_state 2%nat).
  - split; reflexivity.
  - reflexivity.
Defined.

(** ** C6: the mode of a session *)

(** The code at the input on which C6 fails.  [connect] is given the host
    ['localhost:2222'], which is neither ['localhost'] nor ['127.0.0.1']:
    it logs in through the SFTP library, but it stores the host
    ['localhost'], so the [list] that follows reads the local disk and the
    [disconnect] after it never ends the SFTP connection. *)
Lemma C6_host_with_port_mixes_modes :
  names_local_machine (host (cfg_of "localhost:2222" (Some "pw"))) = false /\
  exists outs st,
    run_calls sample_env
      [OpConnect (cfg_of "localhost:2222" (Some "pw"));
       OpList (Some "/tmp");
       OpDisconnect] (initial 0%nat) = (outs, st) /\
    map is_success_outcome outs = [true; true; true] /\
    trace st
    = [Ev (ClientConnect
             (Some {| host := "localhost"; port := Some 2222;
                      username := "user"; password := Some "pw";
                      privateKey := None; passphrase := None;
                      retries := Some 3; retry_factor := Some 2;
                      retry_minTimeout := Some 2000 |})) None;
       Ev (FsReaddirSync "/tmp") None] /\
    map is_client_event (trace st) = [true; false].
Proof.
  split; [reflexivity |]. eexists _, _. repeat split.
Qed.

(** ** C8: [connect] with and without credentials *)

(** C8 on a [localhost] config and
    on an [example.com] config, both without credentials. *)
Lemma C8_witness :
  connect sample_env (cfg_of "localhost" None) (initial 0%nat)
  = (Returned [("success", VBool true);
               ("message", VStr "Connected to localhost")],
     mkState {| connected := true;
                config := Some (cfg_of "localhost" None) |} 0%nat [])
  /\
  exists r st',
    connect sample_env (cfg_of "example.com" None) (initial 0%nat)
    = (Returned r, st') /\
    is_failure r = true /\
    connected (self st') = false /\
    world st' = world (initial 0%nat) /\
    trace st' = trace (initial 0%nat).
Proof.
  split.
  - apply (proj1 (C8_connect_localhost_needs_no_credentials sample_env
                    (cfg_of "localhost" None) (initial 0%nat))).
    left. reflexivity.
  - apply (proj2 (C8_connect_localhost_needs_no_credentials sample_env
                    (cfg_of "example.com" None) (initial 0%nat)));
      [discriminate | discriminate | reflexivity | reflexivity].
Defined.

(** ** C9: the direction of a local transfer *)

(** C9 on a localhost session over the sample disk, where [/srv] holds
    the directory [docs] and the file [a.txt]: [getDir('/srv',
    '/backup')] is [putDir('/srv', '/backup')], it succeeds, and it has
    made [/backup] and [/backup/docs] and copied [/srv/a.txt] to
    [/backup/a.txt]. *)
Lemma C9_witness :
  call disk_env (OpGet "/srv" "/backup") local_state
  = call disk_env (OpPut "/srv" "/backup") local_state /\
  call disk_env (OpGet "/srv" "/backup") local_state
  = match handle disk_env (FsCopyFileSync "/srv" "/backup")
                 (world local_state) with
    | (Ok _, w') =>
        (Returned [("success", VBool true);
                   ("message", VStr "File copied successfully");
                   ("data", VObj [("localPath", VStr "/srv");
                                  ("remotePath", VStr "/backup")])],
         mkState (self local_state) w'
                 (trace local_state
                  ++ [Ev (FsCopyFileSync "/srv" "/backup") None])%list)
    | (Raise e, w') =>
        (Returned [("success", VBool false);
                   ("message", VStr "Copy failed");
                   ("error", VStr (message e))],
         mkState (self local_state) w'
                 (trace local_state
                  ++ [Ev (FsCopyFileSync "/srv" "/backup") (Some e)])%list)
    end /\
  call disk_env (OpGetDir "/srv" "/backup") local_state
  = call disk_env (OpPutDir "/srv" "/backup") local_state /\
  call disk_env (OpGetDir "/srv" "/backup") local_state
  = putDirLocal disk_env "/srv" "/backup" local_state /\
  is_success
    (returned (fst (call disk_env (OpGetDir "/srv" "/backup") local_state)))
  = true /\
  copy_log (path_join disk_env) srv_listing (stack_limit disk_env)
    "/srv" "/backup"
    [Ev (FsExistsSync "/backup") None;
     Ev (FsMkdirSync "/backup" true) None;
     Ev (FsReaddirSync "/srv") None;
     Ev (FsExistsSync "/backup/docs") None;
     Ev (FsMkdirSync "/backup/docs" true) None;
     Ev (FsReaddirSync "/srv/docs") None;
     Ev (FsCopyFileSync "/srv/a.txt" "/backup/a.txt") None].
Proof.
  destruct (C9_localhost_get_is_put disk_env "/srv" "/backup" local_state)
    as (Hfile & Hcopy & Hdir & Hlocal & Hlog); [split; reflexivity |].
  split; [exact Hfile |]. split; [exact Hcopy |].
  split; [exact Hdir |]. split; [exact Hlocal |].
  split; [reflexivity |].
  apply (Hlog srv_listing
           (returned
              (fst (call disk_env (OpGetDir "/srv" "/backup") local_state)))
           (snd (call disk_env (OpGetDir "/srv" "/backup") local_state)));
    [| reflexivity | reflexivity].
  split; [intros w; reflexivity |].
  constructor.
  - intros _. split; [intros w; reflexivity | constructor].
  - constructor; [intros Hkind; discriminate Hkind | constructor].
Defined.

(** ** C10: a [connect] that fails *)

(** C10 on a session whose second
    [connect] finds the server out of reach. *)
Lemma C10_witness :
  connected
    (self (snd (connect offline_env (cfg_of "example.com" (Some "pw"))
                        remote_state))) = false /\
  isConnected
    (snd (connect offline_env (cfg_of "example.com" (Some "pw"))
                  remote_state))
  = (Returned false,
     snd (connect offline_env (cfg_of "example.com" (Some "pw"))
                  remote_state)) /\
  call offline_env (OpStat "/etc")
    (snd (run_calls offline_env [OpPwd; OpDisconnect]
            (snd (connect offline_env (cfg_of "example.com" (Some "pw"))
                          remote_state))))
  = (Thrown NotConnected,
     snd (run_calls offline_env [OpPwd; OpDisconnect]
            (snd (connect offline_env (cfg_of "example.com" (Some "pw"))
                          remote_state)))) /\
  fst (call offline_env (OpStat "/etc")
         (snd (run_calls offline_env [OpPwd; OpDisconnect]
                 (snd (connect offline_env
                         (cfg_of "example.com" (Some "pw"))
                         remote_state)))))
  = fst (call offline_env (OpStat "/etc") (initial 7%nat)).
Proof.
  eapply (C10_failed_connect_leaves_disconnected offline_env
            (cfg_of "example.com" (Some "pw")) remote_state);
    [reflexivity | reflexivity | | reflexivity].
  exists [OpPwd; OpDisconnect]. eexists.
  split; [apply surjective_pairing | reflexivity].
Defined.

(** ** The JavaScript helpers on sample inputs *)

Example parseInt_port : parseInt "2222" None = Some 2222.
Proof. reflexivity. Qed.

Example parseInt_hex : parseInt " -0x1fz" None = Some (-31).
Proof. reflexivity. Qed.

Example parseInt_mode : parseInt "755" (Some 8) = Some 493.
Proof. reflexivity. Qed.

Example parseInt_nan : parseInt "abc" None = None.
Proof. reflexivity. Qed.

Example split_host_port :
  split ":" "example.com:2222" = ["example.com"; "2222"]%string.
Proof. reflexivity. Qed.

(** * Further properties on the sample worlds *)

(** A session on [example.com] stays with the SFTP library through a
    listing, a rename and the disconnect. *)
Lemma sessions_stay_in_one_mode_witness :
  exists evs,
    trace (snd (run_calls sample_env
                  [OpList (Some "/home/user"); OpRename "/a" "/b";
                   OpDisconnect] remote_state))
    = (trace remote_state ++ evs)%list /\
    forallb (if names_local_machine
                  (parsed_host (host (cfg_of "example.com" (Some "pw"))))
             then is_local_event else is_client_event) evs = true /\
    config (self (snd (run_calls sample_env
                         [OpList (Some "/home/user"); OpRename "/a" "/b";
                          OpDisconnect] remote_state)))
    = config (self remote_state).
Proof.
  eapply (sessions_stay_in_one_mode sample_env
            (cfg_of "example.com" (Some "pw")) (initial 0%nat) remote_state);
    reflexivity.
Defined.

(** A refused rename and a listing leave the sample session connected. *)
Lemma operations_keep_session_witness :
  self (snd (run_calls sample_env
               [OpRename "/a" "/b"; OpList None; OpPwd] remote_state))
  = self remote_state.
Proof.
  apply (operations_keep_session sample_env
           [OpRename "/a" "/b"; OpList None; OpPwd]).
  reflexivity.
Defined.

(** The refused rename is one call to the library. *)
Lemma remote_operation_is_one_call_witness :
  exists (A : Type) (c : Call A) (err : option Error) r st',
    call sample_env (OpRename "/a" "/b") remote_state = (Returned r, st') /\
    is_client_call c = true /\
    trace st' = (trace remote_state ++ [Ev c err])%list /\
    world st' = snd (handle sample_env c (world remote_state)) /\
    self st' = self remote_state /\
    (is_success r = true <-> err = None) /\
    (forall e, err = Some e -> lookup "error" r = Some (VStr (message e))).
Proof.
  apply (remote_operation_is_one_call sample_env (OpRename "/a" "/b")
           remote_state); [split; reflexivity | reflexivity | exact I].
Defined.

(** A delete on the sample localhost session is one call to [fs]. *)
Lemma local_operation_is_one_call_witness :
  exists (A : Type) (c : Call A) (err : option Error) r st',
    call sample_env (OpDelete "/tmp/x") local_state = (Returned r, st') /\
    is_client_call c = false /\
    trace st' = (trace local_state ++ [Ev c err])%list /\
    world st' = snd (handle sample_env c (world local_state)) /\
    self st' = self local_state /\
    (is_success r = true <-> err = None) /\
    (forall e, err = Some e -> lookup "error" r = Some (VStr (message e))).
Proof.
  apply (local_operation_is_one_call sample_env (OpDelete "/tmp/x")
           local_state); [split; reflexivity | reflexivity].
Defined.

(** With both credentials given, the login on the sample server is the
    one call [client.connect], with the password and without key and
    passphrase. *)
Lemma connect_password_takes_precedence_witness :
  exists stored err r st',
    connect sample_env cfg_both (initial 0%nat) = (Returned r, st') /\
    trace st'
    = (trace (initial 0%nat)
       ++ [Ev (ClientConnect (Some stored)) err])%list /\
    world st'
    = snd (handle sample_env (ClientConnect (Some stored))
                  (world (initial 0%nat))) /\
    config (self st') = Some stored /\
    host stored = parsed_host (host cfg_both) /\
    username stored = username cfg_both /\
    password stored = password cfg_both /\
    privateKey stored = None /\
    passphrase stored = None /\
    (err = None -> is_success r = true /\ connected (self st') = true) /\
    (forall e, err = Some e ->
       is_failure r = true /\
       lookup "error" r = Some (VStr (message e)) /\
       connected (self st') = false).
Proof.
  apply (connect_password_takes_precedence sample_env cfg_both
           (initial 0%nat)); reflexivity.
Defined.

(** With the key path only, the key file is read and its bytes sent. *)
Lemma connect_reads_key_file_witness :
  exists r st',
    connect sample_env cfg_key (initial 0%nat) = (Returned r, st') /\
    match handle sample_env (FsReadFileSync "/home/user/.ssh/id")
                 (world (initial 0%nat)) with
    | (Raise e, w1) =>
        r = [("success", VBool false);
             ("message", VStr "Connection failed");
             ("error", VStr (message e))] /\
        trace st'
        = (trace (initial 0%nat)
           ++ [Ev (FsReadFileSync "/home/user/.ssh/id") (Some e)])%list /\
        world st' = w1 /\
        connected (self st') = false
    | (Ok bytes, w1) =>
        exists stored err,
          trace st'
          = ((trace (initial 0%nat)
              ++ [Ev (FsReadFileSync "/home/user/.ssh/id") None])
             ++ [Ev (ClientConnect (Some stored)) err])%list /\
          world st'
          = snd (handle sample_env (ClientConnect (Some stored)) w1) /\
          config (self st') = Some stored /\
          privateKey stored = Some (inr bytes) /\
          password stored = None /\
          passphrase stored
          = (if truthy_str (passphrase cfg_key)
             then passphrase cfg_key else None) /\
          (err = None ->
           is_success r = true /\ connected (self st') = true) /\
          (forall e, err = Some e ->
             is_failure r = true /\
             lookup "error" r = Some (VStr (message e)) /\
             connected (self st') = false)
    end.
Proof.
  apply (connect_reads_key_file sample_env cfg_key "/home/user/.ssh/id"
           (initial 0%nat));
    [reflexivity | reflexivity | reflexivity | discriminate].
Defined.

(** The changelog's [example.com:2222], with a [port] that loses. *)
Lemma connect_port_in_host_wins_witness :
  exists r st' stored,
    connect sample_env
      {| host := "example.com:2222"; port := Some 22; username := "user";
         password := Some "pw"; privateKey := None; passphrase := None;
         retries := None; retry_factor := None; retry_minTimeout := None |}
      (initial 0%nat) = (Returned r, st') /\
    config (self st') = Some stored /\
    host stored = "example.com" /\
    port stored = Some 2222 /\
    (is_success r = true ->
     lookup "message" r
     = Some (VStr ("Connected to " ++ "example.com" ++ ":"
                   ++ string_of_Z 2222))).
Proof.
  apply (connect_port_in_host_wins sample_env _ "example.com" 2222);
    [reflexivity | reflexivity | discriminate | lia].
Defined.

(** The listing of [/srv] on the sample disk. *)
Lemma local_list_shape_witness :
  exists files,
    lookup "data"
      (returned (fst (call disk_env (OpList (Some "/srv")) local_state)))
    = Some (VArr files) /\
    Forall2
      (fun item file =>
         exists info,
           file = VObj info /\
           get_prop info "name" = VStr (dirent_name item) /\
           get_prop info "type"
           = VStr (if dirent_isDirectory item then "d" else "-") /\
           get_prop info "rights"
           = VObj [("user", VStr "rwx"); ("group", VStr "r-x");
                   ("other", VStr "r-x")])
      [mkDirent "docs" true; mkDirent "a.txt" false] files.
Proof.
  apply (local_list_shape disk_env (Some "/srv")
           [mkDirent "docs" true; mkDirent "a.txt" false]
           local_state
           (snd (call disk_env (OpList (Some "/srv")) local_state))
           1%nat);
    [split; reflexivity | reflexivity | reflexivity | reflexivity].
Defined.

(** Copying [/srv] to [/backup] on the sample disk. *)
Lemma local_directory_copy_only_copies_witness :
  exists r st' evs,
    call disk_env (OpPutDir "/srv" "/backup") local_state
    = (Returned r, st') /\
    trace st' = (trace local_state ++ evs)%list /\
    forallb is_copy_event evs = true.
Proof.
  apply (local_directory_copy_only_copies disk_env
           (OpPutDir "/srv" "/backup") "/srv" "/backup" local_state);
    [split; reflexivity | left; reflexivity].
Defined.

(** [exists('/gone')] and [exists('/srv')] on the sample disk. *)
Lemma local_exists_is_coherent_witness :
  ((lookup "data"
      (returned (fst (call disk_env (OpExists "/gone") local_state)))
    = Some (VObj [("exists", VBool false); ("type", VNull)]) /\
    trace (snd (call disk_env (OpExists "/gone") local_state))
    = (trace local_state ++ [Ev (FsExistsSync "/gone") None])%list)
   \/
   (exists t,
      (t = "d" \/ t = "-") /\
      lookup "data"
        (returned (fst (call disk_env (OpExists "/gone") local_state)))
      = Some (VObj [("exists", VBool true); ("type", VStr t)]) /\
      trace (snd (call disk_env (OpExists "/gone") local_state))
      = ((trace local_state ++ [Ev (FsExistsSync "/gone") None])
         ++ [Ev (FsStatSync "/gone") None])%list)).
Proof.
  apply (local_exists_is_coherent disk_env "/gone" local_state);
    [split; reflexivity | reflexivity | reflexivity].
Defined.

(** [chmod('/srv/a.txt', '755')] on the sample disk. *)
Lemma local_chmod_reads_octal_witness :
  numeral [7; 5; 5] = "755" /\
  numeral_value 8 [7; 5; 5] = 493 /\
  exists err r st',
    call disk_env (OpChmod "/srv/a.txt" (ModeStr (numeral [7; 5; 5])))
         local_state = (Returned r, st') /\
    trace st'
    = (trace local_state
       ++ [Ev (FsChmodSync "/srv/a.txt" (Some (numeral_value 8 [7; 5; 5])))
              err])%list /\
    (is_success r = true <-> err = None).
Proof.
  split; [reflexivity |]. split; [reflexivity |].
  apply (local_chmod_reads_octal disk_env "/srv/a.txt" [7; 5; 5] local_state).
  - split; reflexivity.
  - discriminate.
  - repeat constructor; lia.
  - reflexivity.
Defined.

(** The answers [example.com:2222] and [localhost:2222] at the prompt. *)
Lemma prompted_host_and_port_reach_the_server_witness :
  exists r st' stored,
    connect sample_env
      (promptConnection
         (mkAnswers "example.com:2222" "user" (Some "pw") None))
      (initial 0%nat) = (Returned r, st') /\
    config (self st') = Some stored /\
    host stored = "example.com" /\
    port stored = Some 2222.
Proof.
  apply (proj2 (proj2 (proj2
           (prompted_host_and_port_reach_the_server sample_env
              (mkAnswers "example.com:2222" "user" (Some "pw") None)
              (initial 0%nat))))).
  reflexivity.
Defined.

Lemma prompted_localhost_with_port_is_passthrough_witness :
  connect sample_env
    (promptConnection (mkAnswers "localhost:2222" "user" (Some "pw") None))
    (initial 0%nat)
  = (Returned [("success", VBool true);
               ("message", VStr "Connected to localhost")],
     mkState {| connected := true;
                config := Some (promptConnection
                                  (mkAnswers "localhost:2222" "user"
                                             (Some "pw") None)) |}
             0%nat []).
Proof.
  apply (prompted_localhost_with_port_is_passthrough sample_env
           (mkAnswers "localhost:2222" "user" (Some "pw") None)
           (initial 0%nat)).
  reflexivity.
Defined.

(** From [/home/user], into [docs] and back. *)
Lemma goBack_undoes_openFolder_witness :
  exists child,
    openFolder_newPath [mkFileItem "-" "a.txt"; mkFileItem "d" "docs"]
                       (path_of ["home"; "user"]) 1 = Some child /\
    goBack_newPath child = Some (path_of ["home"; "user"]).
Proof.
  apply (goBack_undoes_openFolder
           [mkFileItem "-" "a.txt"; mkFileItem "d" "docs"]
           ["home"; "user"] 1 (mkFileItem "d" "docs"));
    reflexivity.
Defined.

(** Going back from a path with doubled and trailing slashes. *)
Lemma goBack_loads_a_clean_path_witness :
  exists segs,
    forallb segment segs = true /\ "/home/user" = path_of segs.
Proof.
  apply (goBack_loads_a_clean_path "//home//user/docs/" "/home/user").
  reflexivity.
Defined.
